(** * WebSocket server core (RFC 6455): frame codec, handshake, connection
    lifecycle and message abstraction.

    Shallow embedding of the Go packages [pkg/protocol], [internal/domain]
    and [internal/infrastructure].

    Conventions of the embedding:
    - a Go [byte] is a [Z] in [0, 256), a [uint64] a [Z] in [0, 2^64); the
      truncating conversions [byte(x)] and [uint16(x)] are written out;
    - a Go [int] used as an enumeration tag ([ConnectionState],
      [MessageType]) is a [Z], so that hand-assembled tags such as
      [MessageType(99)] exist in the model as they do in Go;
    - a Go [string] is a [string] (a sequence of octets);
    - a method with a pointer receiver that assigns to a field returns the
      updated record next to its result;
    - [time.Now()] is an explicit argument [now];
    - an [io.Reader] is the list of octets still to be read, an [io.Writer]
      the list of octets written so far;
    - [make] always succeeds: the size of an allocation is not bounded;
    - [error] values: [None] is Go's [nil]. *)

From Stdlib Require Import ZArith Lia List Bool String Ascii DecimalString
  DecimalZ.
From stdpp Require Import base list gmap strings.
Import ListNotations.

#[local] Open Scope string_scope.
#[local] Open Scope list_scope.
#[local] Open Scope Z_scope.

(* ===================================================================== *)
(** * Package protocol: constants                                         *)
(* ===================================================================== *)

Module protocol.

Definition WebSocketGUID : string := "258EAFA5-E914-47DA-95CA-C5AB0DC85B11".
Definition WebSocketVersion : string := "13".

Definition HeaderUpgrade : string := "Upgrade".
Definition HeaderConnection : string := "Connection".
Definition HeaderSecWebSocketKey : string := "Sec-WebSocket-Key".
Definition HeaderSecWebSocketAccept : string := "Sec-WebSocket-Accept".
Definition HeaderSecWebSocketVersion : string := "Sec-WebSocket-Version".

Definition HeaderValueWebSocket : string := "websocket".
Definition HeaderValueUpgrade : string := "Upgrade".

Definition MaxControlFramePayloadSize : Z := 125.
Definition MaxPayloadSize : Z := Z.shiftl 1 20.

Definition PayloadLen16Bit : Z := 126.
Definition PayloadLen64Bit : Z := 127.

End protocol.

(* ===================================================================== *)
(** * Package domain                                                      *)
(* ===================================================================== *)

(** ** errors.go, and the two errors of package [io] that [io.ReadFull]
    returns. [Wrapped msg e] is [fmt.Errorf("%w: ...", e, ...)] and
    [Plain msg] is [fmt.Errorf] without [%w]; [msg] is the whole text. *)
Inductive error : Type :=
| ErrInvalidFrameStructure
| ErrInvalidOpcode
| ErrReservedBitsSet
| ErrPayloadTooLarge
| ErrUnmaskedClientFrame
| ErrMaskedServerFrame
| ErrConnectionClosed
| ErrInvalidState
| ErrConnectionNotFound
| ErrInvalidMessageType
| ErrEmptyPayload
| ErrProtocolViolation
| ErrPolicyViolation
| ErrInternalError
| EOF
| ErrUnexpectedEOF
| Wrapped (msg : string) (inner : error)
| Plain (msg : string).

#[global] Instance error_eq_dec : EqDecision error.
Proof. solve_decision. Defined.

(** [errors.New] texts of the sentinels, [Error()] of the others. *)
Definition Error (e : error) : string :=
  match e with
  | ErrInvalidFrameStructure => "invalid frame structure"
  | ErrInvalidOpcode => "invalid opcode"
  | ErrReservedBitsSet => "reserved bits incorrectly set"
  | ErrPayloadTooLarge => "payload exceeds maximum size"
  | ErrUnmaskedClientFrame => "client frame must be masked"
  | ErrMaskedServerFrame => "server frame must not be masked"
  | ErrConnectionClosed => "connection is closed"
  | ErrInvalidState => "invalid connection state"
  | ErrConnectionNotFound => "connection not found"
  | ErrInvalidMessageType => "invalid message type"
  | ErrEmptyPayload => "empty payload"
  | ErrProtocolViolation => "protocol violation"
  | ErrPolicyViolation => "policy violation"
  | ErrInternalError => "internal error"
  | EOF => "EOF"
  | ErrUnexpectedEOF => "unexpected EOF"
  | Wrapped msg _ => msg
  | Plain msg => msg
  end.

(** [errors.Is]: the error itself or one it wraps. *)
Fixpoint errors_Is (e target : error) : bool :=
  bool_decide (e = target) ||
  match e with
  | Wrapped _ inner => errors_Is inner target
  | _ => false
  end.

(** [%d] of an integer. *)
Definition itoa (n : Z) : string := NilEmpty.string_of_int (Z.to_int n).

(** ** connection.go *)

Definition ConnectionState : Type := Z.

Definition StateConnecting : ConnectionState := 0.
Definition StateOpen : ConnectionState := 1.
Definition StateClosing : ConnectionState := 2.
Definition StateClosed : ConnectionState := 3.

Definition ConnectionState_String (s : ConnectionState) : string :=
  if s =? StateConnecting then "Connecting"
  else if s =? StateOpen then "Open"
  else if s =? StateClosing then "Closing"
  else if s =? StateClosed then "Closed"
  else ("Unknown(" ++ itoa s ++ ")")%string.

(** [time.Time], as an instant on the clock the caller reads. *)
Definition Time : Type := Z.

Section Connection.

(** The values of the metadata map ([interface{}]). *)
Context {any : Type}.

Record Connection : Type := mkConnection {
  ID : string;
  RemoteAddr : string;
  State : ConnectionState;
  LastActivity : Time;
  Metadata : gmap string any
}.

Definition NewConnection (now : Time) (id remoteAddr : string) : Connection :=
  {| ID := id;
     RemoteAddr := remoteAddr;
     State := StateConnecting;
     LastActivity := now;
     Metadata := ∅ |}.

Definition CanTransitionTo (c : Connection) (newState : ConnectionState) : bool :=
  if State c =? StateConnecting then
    (newState =? StateOpen) || (newState =? StateClosed)
  else if State c =? StateOpen then
    (newState =? StateClosing) || (newState =? StateClosed)
  else if State c =? StateClosing then
    newState =? StateClosed
  else if State c =? StateClosed then
    false
  else
    false.

Definition set_State (c : Connection) (s : ConnectionState) : Connection :=
  {| ID := ID c; RemoteAddr := RemoteAddr c; State := s;
     LastActivity := LastActivity c; Metadata := Metadata c |}.

Definition set_LastActivity (c : Connection) (t : Time) : Connection :=
  {| ID := ID c; RemoteAddr := RemoteAddr c; State := State c;
     LastActivity := t; Metadata := Metadata c |}.

Definition TransitionTo (c : Connection) (newState : ConnectionState)
  : option error * Connection :=
  if negb (CanTransitionTo c newState) then
    (Some (Wrapped (Error ErrInvalidState ++ ": cannot transition from "
                      ++ ConnectionState_String (State c) ++ " to "
                      ++ ConnectionState_String newState)%string
                   ErrInvalidState), c)
  else
    (None, set_State c newState).

Definition UpdateActivity (now : Time) (c : Connection) : Connection :=
  set_LastActivity c now.

Definition IsOpen (c : Connection) : bool := State c =? StateOpen.
Definition IsClosed (c : Connection) : bool := State c =? StateClosed.
Definition IsClosing (c : Connection) : bool := State c =? StateClosing.

End Connection.

Arguments Connection : clear implicits.

(** The transitions that the lifecycle permits. *)
Definition permitted : list (ConnectionState * ConnectionState) :=
  [ (StateConnecting, StateOpen); (StateConnecting, StateClosed);
    (StateOpen, StateClosing); (StateOpen, StateClosed);
    (StateClosing, StateClosed) ].

(** ** message.go *)

Definition Opcode : Type := Z.

Definition OpcodeContinuation : Opcode := 0x0.
Definition OpcodeText : Opcode := 0x1.
Definition OpcodeBinary : Opcode := 0x2.
Definition OpcodeClose : Opcode := 0x8.
Definition OpcodePing : Opcode := 0x9.
Definition OpcodePong : Opcode := 0xA.

Definition MessageType : Type := Z.

Definition MessageTypeText : MessageType := 0.
Definition MessageTypeBinary : MessageType := 1.

Record Message : Type := mkMessage {
  Message_Type : MessageType;
  Message_Payload : list Z
}.

Definition NewTextMessage (payload : list Z) : Message :=
  {| Message_Type := MessageTypeText; Message_Payload := payload |}.

Definition NewBinaryMessage (payload : list Z) : Message :=
  {| Message_Type := MessageTypeBinary; Message_Payload := payload |}.

Definition Message_Validate (m : Message) : option error :=
  if negb (Message_Type m =? MessageTypeText) && negb (Message_Type m =? MessageTypeBinary)
  then Some ErrInvalidMessageType
  else None.

Definition ToOpcode (m : Message) : Opcode :=
  if Message_Type m =? MessageTypeText then OpcodeText
  else if Message_Type m =? MessageTypeBinary then OpcodeBinary
  else OpcodeBinary.

(** ** frame.go *)

Definition IsControl (o : Opcode) : bool := o >=? 0x8.

Definition IsData (o : Opcode) : bool := o <=? 0x2.

(** [[4]byte]. *)
Definition Key4 : Type := Z * Z * Z * Z.

Definition zero_key : Key4 := (0, 0, 0, 0).

(** [k[i]] for [i] in [0, 4). *)
Definition key_at (k : Key4) (i : nat) : Z :=
  let '(k0, k1, k2, k3) := k in
  match i with
  | O => k0
  | 1%nat => k1
  | 2%nat => k2
  | _ => k3
  end.

Definition key_bytes (k : Key4) : list Z :=
  let '(k0, k1, k2, k3) := k in [k0; k1; k2; k3].

(** The struct [Frame]. The payload type is a parameter: the octets
    themselves ([Frame]) where a frame is looked at as a value, a slice
    into the store of backing arrays ([FrameRef], below) where the
    aliasing of [Payload] matters. *)
Record Frame_ (B : Type) : Type := mkFrame {
  FIN : bool;
  RSV1 : bool;
  RSV2 : bool;
  RSV3 : bool;
  Opcode_ : Opcode;
  Masked : bool;
  PayloadLen : Z;
  MaskingKey : Key4;
  Payload : B
}.

Arguments mkFrame {B}.
Arguments FIN {B}.
Arguments RSV1 {B}.
Arguments RSV2 {B}.
Arguments RSV3 {B}.
Arguments Opcode_ {B}.
Arguments Masked {B}.
Arguments PayloadLen {B}.
Arguments MaskingKey {B}.
Arguments Payload {B}.

Abbreviation Frame := (Frame_ (list Z)).

(** [len(payload)] as a [uint64]. *)
Definition len (l : list Z) : Z := Z.of_nat (length l).

Definition NewFrame (opcode : Opcode) (payload : list Z) : Frame :=
  {| FIN := true; RSV1 := false; RSV2 := false; RSV3 := false;
     Opcode_ := opcode; Masked := false;
     PayloadLen := len payload;
     MaskingKey := zero_key;
     Payload := payload |}.

Definition isValidOpcode {B} (f : Frame_ B) : bool :=
  (Opcode_ f =? OpcodeContinuation) || (Opcode_ f =? OpcodeText)
  || (Opcode_ f =? OpcodeBinary) || (Opcode_ f =? OpcodeClose)
  || (Opcode_ f =? OpcodePing) || (Opcode_ f =? OpcodePong).

Definition Validate (f : Frame) : option error :=
  if negb (isValidOpcode f) then Some ErrInvalidOpcode
  else if RSV1 f || RSV2 f || RSV3 f then Some ErrReservedBitsSet
  else if IsControl (Opcode_ f) && (PayloadLen f >? 125) then
    Some ErrInvalidFrameStructure
  else if IsControl (Opcode_ f) && negb (FIN f) then
    Some ErrInvalidFrameStructure
  else if negb (len (Payload f) =? PayloadLen f) then
    Some ErrInvalidFrameStructure
  else None.

(* ===================================================================== *)
(** * Package infrastructure: frame_parser.go                             *)
(* ===================================================================== *)

(** ** Conversions and [encoding/binary] *)

(** [byte(x)], [uint16(x)]: truncation. *)
Definition byte (x : Z) : Z := x mod 256.
Definition uint16 (x : Z) : Z := x mod 65536.

(** [b[i]] of a buffer that is long enough. *)
Definition at_ (b : list Z) (i : nat) : Z := nth i b 0.

(** [binary.BigEndian.Uint16], [Uint64], [PutUint16], [PutUint64]. *)
Definition Uint16 (b : list Z) : Z :=
  Z.lor (at_ b 1) (Z.shiftl (at_ b 0) 8).

Definition Uint64 (b : list Z) : Z :=
  Z.lor (Z.lor (Z.lor (Z.lor (Z.lor (Z.lor (Z.lor
    (at_ b 7)
    (Z.shiftl (at_ b 6) 8))
    (Z.shiftl (at_ b 5) 16))
    (Z.shiftl (at_ b 4) 24))
    (Z.shiftl (at_ b 3) 32))
    (Z.shiftl (at_ b 2) 40))
    (Z.shiftl (at_ b 1) 48))
    (Z.shiftl (at_ b 0) 56).

Definition PutUint16 (v : Z) : list Z :=
  [byte (Z.shiftr v 8); byte v].

Definition PutUint64 (v : Z) : list Z :=
  [byte (Z.shiftr v 56); byte (Z.shiftr v 48); byte (Z.shiftr v 40);
   byte (Z.shiftr v 32); byte (Z.shiftr v 24); byte (Z.shiftr v 16);
   byte (Z.shiftr v 8); byte v].

(** ** Reading from an [io.Reader]

    A computation that reads: from the octets still to come to a result and
    the octets left. A failed step leaves what was consumed consumed. *)
Inductive result (A : Type) : Type :=
| Ok (a : A)
| Err (e : error).

Arguments Ok {A}.
Arguments Err {A}.

Definition Rd (A : Type) : Type := list Z -> result A * list Z.

Definition ret {A} (a : A) : Rd A := fun r => (Ok a, r).

Definition fail {A} (e : error) : Rd A := fun r => (Err e, r).

Definition bind {A B} (c : Rd A) (k : A -> Rd B) : Rd B :=
  fun r =>
    match c r with
    | (Ok a, r') => k a r'
    | (Err e, r') => (Err e, r')
    end.

Notation "'do' x <- c ; k" := (bind c (fun x => k))
  (at level 10, x name, c at level 100, k at level 200).

(** [io.ReadFull(reader, buf)] with [len(buf) = n]: the next [n] octets; on
    a source that ends early, [io.EOF] when nothing was read and
    [io.ErrUnexpectedEOF] otherwise, and the source is exhausted. *)
Definition ReadFull (n : Z) : Rd (list Z) :=
  fun r =>
    if n <=? 0 then (Ok [], r)
    else if len r <? n then
      (Err (match r with [] => EOF | _ => ErrUnexpectedEOF end), [])
    else (Ok (take (Z.to_nat n) r), drop (Z.to_nat n) r).

(** ** The parser *)

Record FrameParser : Type := mkFrameParser {
  maxPayloadSize : Z
}.

Definition NewFrameParser (maxPayloadSize : Z) : FrameParser :=
  let maxPayloadSize :=
    if maxPayloadSize =? 0 then protocol.MaxPayloadSize else maxPayloadSize in
  {| maxPayloadSize := maxPayloadSize |}.

Definition parsePayloadLength (fp : FrameParser) (initialLen : Z) : Rd Z :=
  if initialLen =? protocol.PayloadLen16Bit then
    do buf <- ReadFull 2;
    ret (Uint16 buf)
  else if initialLen =? protocol.PayloadLen64Bit then
    do buf <- ReadFull 8;
    ret (Uint64 buf)
  else
    ret initialLen.

(** [for i := range payload { payload[i] ^= maskingKey[i%4] }], the
    assignment to [payload[i]] as an update of the buffer at index [i]. *)
Definition UnmaskPayload (fp : FrameParser) (payload : list Z)
    (maskingKey : Key4) : list Z :=
  foldl (fun (payload : list Z) (i : nat) =>
           <[ i := Z.lxor (at_ payload i) (key_at maskingKey (i mod 4)) ]>
             payload)
        payload (seq 0 (length payload)).

Definition key_of (b : list Z) : Key4 :=
  (at_ b 0, at_ b 1, at_ b 2, at_ b 3).

Definition ReadFrame (fp : FrameParser) : Rd Frame :=
  do header <- ReadFull 2;
  let fin := negb (Z.land (at_ header 0) 0x80 =? 0) in
  let rsv1 := negb (Z.land (at_ header 0) 0x40 =? 0) in
  let rsv2 := negb (Z.land (at_ header 0) 0x20 =? 0) in
  let rsv3 := negb (Z.land (at_ header 0) 0x10 =? 0) in
  let opcode := Z.land (at_ header 0) 0x0F in
  let masked := negb (Z.land (at_ header 1) 0x80 =? 0) in
  let payloadLen := Z.land (at_ header 1) 0x7F in
  if negb (IsControl opcode) && negb (IsData opcode) then
    fail ErrInvalidOpcode
  else if rsv1 || rsv2 || rsv3 then
    fail ErrReservedBitsSet
  else
    do payloadLen <- parsePayloadLength fp payloadLen;
    if payloadLen >? maxPayloadSize fp then
      fail ErrPayloadTooLarge
    else if IsControl opcode && (payloadLen >? 125) then
      fail ErrInvalidFrameStructure
    else if IsControl opcode && negb fin then
      fail ErrInvalidFrameStructure
    else
      do maskingKey <- (if masked then
                          do k <- ReadFull 4; ret (key_of k)
                        else ret zero_key);
      do payload <- (if payloadLen >? 0 then
                       do p <- ReadFull payloadLen;
                       ret (if masked then UnmaskPayload fp p maskingKey
                            else p)
                     else ret []);
      ret {| FIN := fin; RSV1 := rsv1; RSV2 := rsv2; RSV3 := rsv3;
             Opcode_ := opcode; Masked := masked;
             PayloadLen := payloadLen;
             MaskingKey := maskingKey;
             Payload := payload |}.

(** ** Writing

    The first octet and the header that [WriteFrame] builds before it
    writes anything. *)
Definition first_byte {B} (frame : Frame_ B) : Z :=
  let firstByte := byte (Opcode_ frame) in
  let firstByte := if FIN frame then Z.lor firstByte 0x80 else firstByte in
  let firstByte := if RSV1 frame then Z.lor firstByte 0x40 else firstByte in
  let firstByte := if RSV2 frame then Z.lor firstByte 0x20 else firstByte in
  let firstByte := if RSV3 frame then Z.lor firstByte 0x10 else firstByte in
  firstByte.

Definition frame_header {B} (frame : Frame_ B) : list Z :=
  let header := [first_byte frame] in
  let payloadLen := PayloadLen frame in
  let secondByte := 0 in
  let secondByte := if Masked frame then Z.lor secondByte 0x80
                    else secondByte in
  let header :=
    if payloadLen <=? 125 then
      header ++ [Z.lor secondByte (byte payloadLen)]
    else if payloadLen <=? 65535 then
      (header ++ [Z.lor secondByte protocol.PayloadLen16Bit])
        ++ PutUint16 (uint16 payloadLen)
    else
      (header ++ [Z.lor secondByte protocol.PayloadLen64Bit])
        ++ PutUint64 payloadLen in
  if Masked frame then header ++ key_bytes (MaskingKey frame) else header.

(** [WriteFrame] on a frame taken as a value; the writer is an in-memory
    sink, whose [Write] appends and does not fail. *)
Definition WriteFrame (fp : FrameParser) (writer : list Z) (frame : Frame)
  : option error * list Z :=
  match Validate frame with
  | Some err => (Some err, writer)
  | None =>
      let writer := writer ++ frame_header frame in
      if len (Payload frame) >? 0 then
        let payload := Payload frame in
        let payload :=
          if Masked frame then
            UnmaskPayload fp (Payload frame) (MaskingKey frame)
          else payload in
        (None, writer ++ payload)
      else (None, writer)
  end.

(** ** [WriteFrame] over the store of backing arrays

    [frame.Payload] is a slice: a reference to a backing array that the
    caller owns. The store maps the address of a backing array to its
    octets; a slice is [nil] or the whole of one backing array. *)
Definition loc : Type := positive.

Abbreviation store := (gmap loc (list Z)).

Definition slice : Type := option loc.

Abbreviation FrameRef := (Frame_ slice).

Definition deref (h : store) (s : slice) : list Z :=
  match s with
  | Some l => default [] (h !! l)
  | None => []
  end.

(** The frame as a value, in a given store. *)
Definition load (h : store) (f : FrameRef) : Frame :=
  {| FIN := FIN f; RSV1 := RSV1 f; RSV2 := RSV2 f; RSV3 := RSV3 f;
     Opcode_ := Opcode_ f; Masked := Masked f; PayloadLen := PayloadLen f;
     MaskingKey := MaskingKey f; Payload := deref h (Payload f) |}.

(** [make([]byte, n)]: a new backing array of [n] zero octets. *)
Definition make (h : store) (n : nat) : store * slice :=
  let l := fresh (dom h) in
  (<[ l := replicate n 0 ]> h, Some l).

(** [copy(dst, src)]: the first [min(len(dst), len(src))] octets. *)
Definition copy (h : store) (dst src : slice) : store :=
  match dst with
  | Some l =>
      let d := deref h dst in
      let s := deref h src in
      <[ l := take (length d) s ++ drop (length s) d ]> h
  | None => h
  end.

(** [UnmaskPayload] on a slice: the loop assigns into its backing array. *)
Definition UnmaskPayload_ref (fp : FrameParser) (h : store) (payload : slice)
    (maskingKey : Key4) : store :=
  match payload with
  | Some l => <[ l := UnmaskPayload fp (deref h payload) maskingKey ]> h
  | None => h
  end.

Definition WriteFrame_ref (fp : FrameParser) (h : store) (writer : list Z)
    (frame : FrameRef) : option error * list Z * store :=
  match Validate (load h frame) with
  | Some err => (Some err, writer, h)
  | None =>
      let writer := writer ++ frame_header frame in
      if len (deref h (Payload frame)) >? 0 then
        let payload := Payload frame in
        let '(h, payload) :=
          if Masked frame then
            let '(h, payload) :=
              make h (length (deref h (Payload frame))) in
            let h := copy h payload (Payload frame) in
            let h := UnmaskPayload_ref fp h payload (MaskingKey frame) in
            (h, payload)
          else (h, payload) in
        (None, writer ++ deref h payload, h)
      else (None, writer, h)
  end.

(* ===================================================================== *)
(** * Package infrastructure: handshake.go                                *)
(* ===================================================================== *)

(** ** Strings as octets *)

Definition byte_of_ascii (c : ascii) : Z := Z.of_N (N_of_ascii c).

Definition ascii_of_byte (b : Z) : ascii := ascii_of_N (Z.to_N b).

(** [[]byte(s)] *)
Fixpoint bytes (s : string) : list Z :=
  match s with
  | EmptyString => []
  | String c s' => byte_of_ascii c :: bytes s'
  end.

(** ** [crypto/sha1]: SHA-1 as FIPS 180-4 defines it *)

Definition u32 (x : Z) : Z := x mod 2 ^ 32.

Definition rotl (n x : Z) : Z :=
  Z.lor (u32 (Z.shiftl x n)) (Z.shiftr x (32 - n)).

Definition PutUint32 (v : Z) : list Z :=
  [byte (Z.shiftr v 24); byte (Z.shiftr v 16); byte (Z.shiftr v 8); byte v].

Definition Uint32 (b : list Z) : Z :=
  Z.lor (Z.lor (Z.lor (at_ b 3) (Z.shiftl (at_ b 2) 8))
               (Z.shiftl (at_ b 1) 16))
        (Z.shiftl (at_ b 0) 24).

(** The message, the octet 0x80, zero octets up to 56 modulo 64, and the
    length of the message in bits on 64 bits. *)
Definition sha1_pad (msg : list Z) : list Z :=
  msg ++ [0x80] ++ replicate (Z.to_nat ((55 - len msg) mod 64)) 0
      ++ PutUint64 ((8 * len msg) mod 2 ^ 64).

(** The sixteen words of a block, then
    [w t = rotl 1 (w (t-3) xor w (t-8) xor w (t-14) xor w (t-16))]. *)
Fixpoint sha1_words (n : nat) (block : list Z) : list Z :=
  match n with
  | O => []
  | S n' => Uint32 (take 4 block) :: sha1_words n' (drop 4 block)
  end.

Fixpoint sha1_extend (n : nat) (w : list Z) : list Z :=
  match n with
  | O => w
  | S n' =>
      let t := length w in
      sha1_extend n'
        (w ++ [rotl 1 (Z.lxor (Z.lxor (Z.lxor (at_ w (t - 3)) (at_ w (t - 8)))
                                      (at_ w (t - 14))) (at_ w (t - 16)))])
  end.

Definition sha1_schedule (block : list Z) : list Z :=
  sha1_extend 64 (sha1_words 16 block).

Definition sha1_f (t : nat) (b c d : Z) : Z :=
  if (t <? 20)%nat then Z.lor (Z.land b c) (Z.land (Z.lxor b 0xFFFFFFFF) d)
  else if (t <? 40)%nat then Z.lxor (Z.lxor b c) d
  else if (t <? 60)%nat then
    Z.lor (Z.lor (Z.land b c) (Z.land b d)) (Z.land c d)
  else Z.lxor (Z.lxor b c) d.

Definition sha1_k (t : nat) : Z :=
  if (t <? 20)%nat then 0x5A827999
  else if (t <? 40)%nat then 0x6ED9EBA1
  else if (t <? 60)%nat then 0x8F1BBCDC
  else 0xCA62C1D6.

Definition sha1_state : Type := Z * Z * Z * Z * Z.

Definition sha1_round (w : list Z) (st : sha1_state) (t : nat) : sha1_state :=
  let '(a, b, c, d, e) := st in
  (u32 (rotl 5 a + sha1_f t b c d + e + sha1_k t + at_ w t),
   a, rotl 30 b, c, d).

Definition sha1_block (st : sha1_state) (block : list Z) : sha1_state :=
  let '(h0, h1, h2, h3, h4) := st in
  let '(a, b, c, d, e) :=
    foldl (sha1_round (sha1_schedule block)) st (seq 0 80) in
  (u32 (h0 + a), u32 (h1 + b), u32 (h2 + c), u32 (h3 + d), u32 (h4 + e)).

Fixpoint sha1_blocks (n : nat) (st : sha1_state) (data : list Z)
  : sha1_state :=
  match n with
  | O => st
  | S n' => sha1_blocks n' (sha1_block st (take 64 data)) (drop 64 data)
  end.

Definition sha1_init : sha1_state :=
  (0x67452301, 0xEFCDAB89, 0x98BADCFE, 0x10325476, 0xC3D2E1F0).

(** [sha1.Sum]: the digest, twenty octets. *)
Definition sha1_Sum (data : list Z) : list Z :=
  let padded := sha1_pad data in
  let '(h0, h1, h2, h3, h4) :=
    sha1_blocks (length padded / 64) sha1_init padded in
  PutUint32 h0 ++ PutUint32 h1 ++ PutUint32 h2 ++ PutUint32 h3
    ++ PutUint32 h4.

(** ** [encoding/base64]: [StdEncoding], RFC 4648 with padding *)

Definition encodeStd : string :=
  "ABCDEFGHIJKLMNOPQRSTUVWXYZabcdefghijklmnopqrstuvwxyz0123456789+/".

Definition b64 (v : Z) : ascii :=
  match String.get (Z.to_nat (Z.land v 0x3F)) encodeStd with
  | Some c => c
  | None => "="%char
  end.

Fixpoint EncodeToString (src : list Z) : string :=
  match src with
  | [] => ""
  | [a] =>
      let val := Z.shiftl a 16 in
      String (b64 (Z.shiftr val 18)) (String (b64 (Z.shiftr val 12)) "==")
  | [a; b] =>
      let val := Z.lor (Z.shiftl a 16) (Z.shiftl b 8) in
      String (b64 (Z.shiftr val 18)) (String (b64 (Z.shiftr val 12))
        (String (b64 (Z.shiftr val 6)) "="))
  | a :: b :: c :: rest =>
      let val := Z.lor (Z.lor (Z.shiftl a 16) (Z.shiftl b 8)) c in
      String (b64 (Z.shiftr val 18)) (String (b64 (Z.shiftr val 12))
        (String (b64 (Z.shiftr val 6)) (String (b64 val)
          (EncodeToString rest))))
  end.

Definition GenerateAcceptKey (key : string) : string :=
  let combined := (key ++ protocol.WebSocketGUID)%string in
  let hash := sha1_Sum (bytes combined) in
  EncodeToString hash.

(** ** Package [strings] *)

(** Whether [p] starts [s]. *)
Fixpoint has_prefix (p s : list Z) : bool :=
  match p, s with
  | [], _ => true
  | a :: p', b :: s' => (a =? b) && has_prefix p' s'
  | _ :: _, [] => false
  end.

Definition is_upper (c : Z) : bool := (65 <=? c) && (c <=? 90).

(** Two ASCII characters of [strings.EqualFold]: equal, or the smaller an
    upper-case letter and the larger its lower case. *)
Definition fold_ascii (sr tr : Z) : bool :=
  (tr =? sr) ||
  (let '(sr, tr) := if tr <? sr then (tr, sr) else (sr, tr) in
   is_upper sr && (tr =? sr + 32)).

(** UTF-8 of U+212A KELVIN SIGN and of U+017F LATIN SMALL LETTER LONG S. *)
Definition kelvin_sign : list Z := [0xE2; 0x84; 0xAA].
Definition long_s : list Z := [0xC5; 0xBF].

(** [strings.EqualFold(s, t)] for a [t] of ASCII characters, which is how
    this package calls it: equality of [s] and [t], read as UTF-8, under
    Unicode simple case folding. An ASCII character of [s] matches the same
    character in either case. Of the characters outside ASCII, simple
    folding puts U+212A in the orbit of [K] and [k], and U+017F in the orbit
    of [S] and [s] ([unicode.SimpleFold('k') = U+212A],
    [unicode.SimpleFold('s') = U+017F]); no other folds to an ASCII
    character, and an octet that starts no valid encoding reads as U+FFFD. *)
Fixpoint EqualFold_bytes (s t : list Z) : bool :=
  match t with
  | [] => match s with [] => true | _ :: _ => false end
  | tr :: t' =>
      match s with
      | [] => false
      | sr :: s' =>
          if sr <? 0x80 then fold_ascii sr tr && EqualFold_bytes s' t'
          else if has_prefix kelvin_sign s then
            ((tr =? 75) || (tr =? 107)) && EqualFold_bytes (drop 3 s) t'
          else if has_prefix long_s s then
            ((tr =? 83) || (tr =? 115)) && EqualFold_bytes (drop 2 s) t'
          else false
      end
  end.

Definition EqualFold (s t : string) : bool :=
  EqualFold_bytes (bytes s) (bytes t).

(** UTF-8 of the code points of [unicode.IsSpace]: tab, line feed, vertical
    tab, form feed, carriage return, space, U+0085, U+00A0, U+1680,
    U+2000..U+200A, U+2028, U+2029, U+202F, U+205F, U+3000. *)
Definition spaces : list (list Z) :=
  [ [0x09]; [0x0A]; [0x0B]; [0x0C]; [0x0D]; [0x20];
    [0xC2; 0x85]; [0xC2; 0xA0]; [0xE1; 0x9A; 0x80];
    [0xE2; 0x80; 0x80]; [0xE2; 0x80; 0x81]; [0xE2; 0x80; 0x82];
    [0xE2; 0x80; 0x83]; [0xE2; 0x80; 0x84]; [0xE2; 0x80; 0x85];
    [0xE2; 0x80; 0x86]; [0xE2; 0x80; 0x87]; [0xE2; 0x80; 0x88];
    [0xE2; 0x80; 0x89]; [0xE2; 0x80; 0x8A];
    [0xE2; 0x80; 0xA8]; [0xE2; 0x80; 0xA9]; [0xE2; 0x80; 0xAF];
    [0xE2; 0x81; 0x9F]; [0xE3; 0x80; 0x80] ].

(** [s] without the space it starts with, if it starts with one of [sp]. *)
Fixpoint strip_space (sp : list (list Z)) (s : list Z) : option (list Z) :=
  match sp with
  | [] => None
  | p :: sp' =>
      if has_prefix p s then Some (drop (length p) s) else strip_space sp' s
  end.

(** Strips leading spaces; every step removes an octet, so [length s]
    steps are enough. *)
Fixpoint trim_left (n : nat) (sp : list (list Z)) (s : list Z) : list Z :=
  match n with
  | O => s
  | S n' =>
      match strip_space sp s with
      | Some s' => trim_left n' sp s'
      | None => s
      end
  end.

(** [strings.TrimSpace]: the leading and the trailing white space, as
    Unicode defines it, removed. *)
Definition TrimSpace (s : list Z) : list Z :=
  let s := trim_left (length s) spaces s in
  rev (trim_left (length s) (map (@rev Z) spaces) (rev s)).

(** [strings.Split(s, sep)] for a separator of one octet. *)
Fixpoint Split (s : list Z) (sep : Z) : list (list Z) :=
  match s with
  | [] => [[]]
  | c :: s' =>
      if c =? sep then [] :: Split s' sep
      else match Split s' sep with
           | t :: ts => (c :: t) :: ts
           | [] => [[c]]
           end
  end.

(** ** The validator *)

(** [http.Header]; [Get] returns the first value of the name, [""] when
    there is none. The map is keyed by the header names as package
    [protocol] spells them, which stand for their canonical forms. *)
Abbreviation Header := (gmap string (list string)).

Definition Get (h : Header) (key : string) : string :=
  match h !! key with
  | Some (v :: _) => v
  | _ => ""
  end.

Record Request : Type := mkRequest {
  Request_Header : Header
}.

Definition containsToken (header token : string) : bool :=
  existsb (fun t => EqualFold_bytes (TrimSpace t) (bytes token))
          (Split (bytes header) 44).

Definition ValidateRequest (req : Request) : option error :=
  let upgrade := Get (Request_Header req) protocol.HeaderUpgrade in
  if negb (EqualFold upgrade protocol.HeaderValueWebSocket) then
    Some (Plain ("missing or invalid Upgrade header: expected 'websocket', got '"
                   ++ upgrade ++ "'")%string)
  else
    let connection := Get (Request_Header req) protocol.HeaderConnection in
    if negb (containsToken connection protocol.HeaderValueUpgrade) then
      Some (Plain ("missing or invalid Connection header: expected 'Upgrade', got '"
                     ++ connection ++ "'")%string)
    else
      let key := Get (Request_Header req) protocol.HeaderSecWebSocketKey in
      if String.eqb key "" then
        Some (Plain "missing Sec-WebSocket-Key header")
      else
        let version :=
          Get (Request_Header req) protocol.HeaderSecWebSocketVersion in
        if negb (String.eqb version protocol.WebSocketVersion) then
          Some (Plain ("unsupported WebSocket version: expected '"
                         ++ protocol.WebSocketVersion ++ "', got '"
                         ++ version ++ "'")%string)
        else None.

(* ===================================================================== *)
(** * The remaining functions of the three packages                       *)
(* ===================================================================== *)

(** ** frame.go *)

Definition IsControlFrame {B} (f : Frame_ B) : bool := IsControl (Opcode_ f).

Definition IsDataFrame {B} (f : Frame_ B) : bool := IsData (Opcode_ f).

(** ** message.go *)

Definition MessageType_String (m : MessageType) : string :=
  if m =? MessageTypeText then "Text"
  else if m =? MessageTypeBinary then "Binary"
  else ("Unknown(" ++ itoa m ++ ")")%string.

Definition IsText (m : Message) : bool := Message_Type m =? MessageTypeText.

Definition IsBinary (m : Message) : bool :=
  Message_Type m =? MessageTypeBinary.

(** ** handshake.go: [PerformUpgrade]

    An [http.ResponseWriter] as a recorder keeps it: the header map, the
    status code once it is written, and the body. [WriteHeader] writes the
    status once; [Write] writes the status 200 first when none is written.
    [http.Error] drops Content-Length, sets the content type to plain text
    and X-Content-Type-Options, writes the status and then the text and a
    line feed. *)
Record ResponseWriter : Type := mkResponseWriter {
  Resp_Header : Header;
  Resp_Code : option Z;
  Resp_Body : string
}.

Definition NewRecorder : ResponseWriter :=
  {| Resp_Header := ∅; Resp_Code := None; Resp_Body := "" |}.

Definition Header_Set (w : ResponseWriter) (key value : string)
  : ResponseWriter :=
  {| Resp_Header := <[ key := [value] ]> (Resp_Header w);
     Resp_Code := Resp_Code w; Resp_Body := Resp_Body w |}.

Definition Header_Del (w : ResponseWriter) (key : string) : ResponseWriter :=
  {| Resp_Header := delete key (Resp_Header w);
     Resp_Code := Resp_Code w; Resp_Body := Resp_Body w |}.

Definition WriteHeader (w : ResponseWriter) (code : Z) : ResponseWriter :=
  match Resp_Code w with
  | Some _ => w
  | None => {| Resp_Header := Resp_Header w; Resp_Code := Some code;
               Resp_Body := Resp_Body w |}
  end.

Definition Write (w : ResponseWriter) (data : string) : ResponseWriter :=
  let w := WriteHeader w 200 in
  {| Resp_Header := Resp_Header w; Resp_Code := Resp_Code w;
     Resp_Body := (Resp_Body w ++ data)%string |}.

Definition StatusSwitchingProtocols : Z := 101.
Definition StatusBadRequest : Z := 400.

Definition http_Error (w : ResponseWriter) (error : string) (code : Z)
  : ResponseWriter :=
  let w := Header_Del w "Content-Length" in
  let w := Header_Set w "Content-Type" "text/plain; charset=utf-8" in
  let w := Header_Set w "X-Content-Type-Options" "nosniff" in
  let w := WriteHeader w code in
  Write w (error ++ String "010"%char "")%string.

Definition PerformUpgrade (w : ResponseWriter) (req : Request)
  : option error * ResponseWriter :=
  match ValidateRequest req with
  | Some err =>
      (Some err,
       http_Error w ("Bad Request: " ++ Error err)%string StatusBadRequest)
  | None =>
      let key := Get (Request_Header req) protocol.HeaderSecWebSocketKey in
      let acceptKey := GenerateAcceptKey key in
      let w := Header_Set w protocol.HeaderUpgrade
                          protocol.HeaderValueWebSocket in
      let w := Header_Set w protocol.HeaderConnection
                          protocol.HeaderValueUpgrade in
      let w := Header_Set w protocol.HeaderSecWebSocketAccept acceptKey in
      let w := WriteHeader w StatusSwitchingProtocols in
      (None, w)
  end.

(* ===================================================================== *)
(** * Vocabulary of the properties                                        *)
(* ===================================================================== *)

Definition is_byte (b : Z) : Prop := 0 <= b < 256.

(** The six opcodes of RFC 6455. *)
Definition valid_opcodes : list Opcode :=
  [OpcodeContinuation; OpcodeText; OpcodeBinary;
   OpcodeClose; OpcodePing; OpcodePong].

(** [declares s v rest]: the octets [s], from the second octet of a frame
    on, hold a complete length field that declares the payload length [v],
    and [rest] is what follows the length field (masking key, payload and
    whatever comes after the frame). *)
Inductive declares : list Z -> Z -> list Z -> Prop :=
| declares_7 (h1 : Z) (rest : list Z) :
    Z.land h1 0x7F <= 125 ->
    declares (h1 :: rest) (Z.land h1 0x7F) rest
| declares_16 (h1 a b : Z) (rest : list Z) :
    Z.land h1 0x7F = 126 ->
    is_byte a -> is_byte b ->
    declares (h1 :: a :: b :: rest) (256 * a + b) rest
| declares_64 (h1 b0 b1 b2 b3 b4 b5 b6 b7 : Z) (rest : list Z) :
    Z.land h1 0x7F = 127 ->
    is_byte b0 -> is_byte b1 -> is_byte b2 -> is_byte b3 ->
    is_byte b4 -> is_byte b5 -> is_byte b6 -> is_byte b7 ->
    declares (h1 :: b0 :: b1 :: b2 :: b3 :: b4 :: b5 :: b6 :: b7 :: rest)
             (2 ^ 56 * b0 + 2 ^ 48 * b1 + 2 ^ 40 * b2 + 2 ^ 32 * b3
              + 2 ^ 24 * b4 + 2 ^ 16 * b5 + 2 ^ 8 * b6 + b7)
             rest.

(** [length_field v l7 ext]: the seven-bit length [l7] and the extended
    length octets [ext] are one of the three encodings of [v]. *)
Inductive length_field (v : Z) : Z -> list Z -> Prop :=
| length_field_7 : 0 <= v <= 125 -> length_field v v []
| length_field_16 :
    0 <= v <= 65535 ->
    length_field v 126 [v / 256; v mod 256]
| length_field_64 :
    0 <= v < 2 ^ 64 ->
    length_field v 127
      [v / 2 ^ 56; v / 2 ^ 48 mod 256; v / 2 ^ 40 mod 256;
       v / 2 ^ 32 mod 256; v / 2 ^ 24 mod 256; v / 2 ^ 16 mod 256;
       v / 2 ^ 8 mod 256; v mod 256].

(** The narrowest of the three. *)
Definition minimal_length_field (v : Z) (l7 : Z) (ext : list Z) : Prop :=
  length_field v l7 ext
  /\ (v <= 125 -> l7 = v /\ ext = [])
  /\ (125 < v <= 65535 -> l7 = 126 /\ length ext = 2%nat)
  /\ (65535 < v -> l7 = 127 /\ length ext = 8%nat).

(** The masking transform: octet [i] XOR key octet [i mod 4]. *)
Definition xor_mask (key : Key4) (payload : list Z) : list Z :=
  imap (fun i b => Z.lxor b (key_at key (i mod 4))) payload.

(** What [ReadFrame] does once the header has passed its checks: masking
    key, payload, and the frame put together. *)
Definition read_body (fp : FrameParser) (fin : bool) (opcode : Opcode)
    (masked : bool) (payloadLen : Z) : Rd Frame :=
  do maskingKey <- (if masked then
                      do k <- ReadFull 4; ret (key_of k)
                    else ret zero_key);
  do payload <- (if payloadLen >? 0 then
                   do p <- ReadFull payloadLen;
                   ret (if masked then UnmaskPayload fp p maskingKey
                        else p)
                 else ret []);
  ret {| FIN := fin; RSV1 := false; RSV2 := false; RSV3 := false;
         Opcode_ := opcode; Masked := masked;
         PayloadLen := payloadLen;
         MaskingKey := maskingKey;
         Payload := payload |}.

(** The invariants of a frame: a recognized opcode, no reserved bit, a
    control frame not fragmented and of at most 125 octets, and a payload
    of the declared length. *)
Definition structurally_valid (f : Frame) : Prop :=
  In (Opcode_ f) valid_opcodes
  /\ RSV1 f = false /\ RSV2 f = false /\ RSV3 f = false
  /\ (IsControl (Opcode_ f) = true -> PayloadLen f <= 125 /\ FIN f = true)
  /\ len (Payload f) = PayloadLen f.

(** The frame with the masking key of the zero value of the struct. *)
Definition without_key (f : Frame) : Frame :=
  {| FIN := FIN f; RSV1 := RSV1 f; RSV2 := RSV2 f; RSV3 := RSV3 f;
     Opcode_ := Opcode_ f; Masked := Masked f; PayloadLen := PayloadLen f;
     MaskingKey := zero_key; Payload := Payload f |}.

(** What a reader can recover of a frame: the masking key travels only
    with a masked frame. *)
Definition as_decoded (f : Frame) : Frame :=
  if Masked f then f else without_key f.

(** The octets of a frame without reserved bits, in arithmetic: the first
    octet, the mask bit of the second, and what follows the length field. *)
Definition first_octet (f : Frame) : Z :=
  Opcode_ f + (if FIN f then 128 else 0).

Definition mask_bit (f : Frame) : Z := if Masked f then 128 else 0.

Definition wire_body (f : Frame) : list Z :=
  if Masked f then key_bytes (MaskingKey f) ++ xor_mask (MaskingKey f) (Payload f)
  else Payload f.







(** A request with the four handshake headers. *)
Definition handshake_request (upgrade connection key version : string)
  : Request :=
  {| Request_Header :=
       <[ protocol.HeaderUpgrade := [upgrade] ]>
         (<[ protocol.HeaderConnection := [connection] ]>
            (<[ protocol.HeaderSecWebSocketKey := [key] ]>
               (<[ protocol.HeaderSecWebSocketVersion := [version] ]> ∅))) |}.

(** A caller that writes frames one after the other to the same sink and
    stops at the first error, and one that reads [n] frames in a row. *)
Fixpoint WriteFrames (fp : FrameParser) (writer : list Z) (fs : list Frame)
  : option error * list Z :=
  match fs with
  | [] => (None, writer)
  | f :: fs' =>
      match WriteFrame fp writer f with
      | (Some err, writer) => (Some err, writer)
      | (None, writer) => WriteFrames fp writer fs'
      end
  end.

Fixpoint ReadFrames (fp : FrameParser) (n : nat) : Rd (list Frame) :=
  match n with
  | O => ret []
  | S n' =>
      do f <- ReadFrame fp;
      do fs <- ReadFrames fp n';
      ret (f :: fs)
  end.

(** A caller that requests the states [ss] one after the other: the
    connection at the end and the number of requests that succeeded. *)
Fixpoint transitions {any} (c : Connection any) (ss : list ConnectionState)
  : Connection any * nat :=
  match ss with
  | [] => (c, O)
  | s :: ss' =>
      match TransitionTo c s with
      | (None, c') => let '(c'', n) := transitions c' ss' in (c'', S n)
      | (Some _, c') => transitions c' ss'
      end
  end.

(** The characters of the base64 alphabet. *)
Definition base64_char (c : ascii) : Prop :=
  In c (list_ascii_of_string encodeStd).

(** The two errors of [io.ReadFull]. *)
Definition io_error (e : error) : Prop := e = EOF \/ e = ErrUnexpectedEOF.

(* ===================================================================== *)
(** * Properties                                                          *)
(* ===================================================================== *)

(** ** Connection lifecycle *)

Lemma CanTransitionTo_permitted {any} (c : Connection any) (to : ConnectionState) :
  CanTransitionTo c to = true <-> In (State c, to) permitted.
Proof.
  unfold CanTransitionTo, permitted, StateConnecting, StateOpen,
    StateClosing, StateClosed.
  cbn [In].
  repeat match goal with
         | |- context [?a =? ?b] => destruct (Z.eqb_spec a b)
         end; cbn [orb]; split; intros H; try discriminate; try reflexivity;
    try (repeat destruct H as [H | H]; try inversion H; try lia; fail);
    try (left; f_equal; lia);
    try (right; left; f_equal; lia);
    try (right; right; left; f_equal; lia);
    try (right; right; right; left; f_equal; lia);
    try (right; right; right; right; left; f_equal; lia).
Qed.

(** C3. A new connection starts in Connecting. [TransitionTo] succeeds
    exactly when the pair (current state, requested state) is one of
    Connecting->Open, Connecting->Closed, Open->Closing, Open->Closed,
    Closing->Closed, and then the state is the requested one and nothing
    else changes. On every other pair, among them every self-loop and every
    pair that leaves Closed, it returns an error that wraps ErrInvalidState
    and the connection is unchanged. *)
Theorem TransitionTo_matrix {any} (c : Connection any) (to : ConnectionState) :
  (forall now id addr,
      State (NewConnection (any := any) now id addr) = StateConnecting)
  /\ (fst (TransitionTo c to) = None <-> In (State c, to) permitted)
  /\ (In (State c, to) permitted ->
      TransitionTo c to = (None, set_State c to)
      /\ State (snd (TransitionTo c to)) = to)
  /\ (~ In (State c, to) permitted ->
      exists e, TransitionTo c to = (Some e, c)
                /\ errors_Is e ErrInvalidState = true)
  /\ (State c = to \/ State c = StateClosed -> ~ In (State c, to) permitted).
Proof.
  pose proof (CanTransitionTo_permitted c to) as Hcan.
  split; [reflexivity|].
  unfold TransitionTo.
  destruct (CanTransitionTo c to) eqn:E; cbn [negb fst snd].
  - assert (Hin : In (State c, to) permitted) by (apply Hcan; reflexivity).
    split; [tauto|]. split; [intros _; split; reflexivity|].
    split; [tauto|].
    intros [Heq | Heq]; revert Hin; rewrite Heq; unfold permitted,
      StateConnecting, StateOpen, StateClosing, StateClosed; cbn [In];
      intros Hin; repeat destruct Hin as [Hin | Hin];
      try inversion Hin; try lia; try contradiction.
  - assert (Hnin : ~ In (State c, to) permitted).
    { intros Hin. apply Hcan in Hin. discriminate. }
    split; [split; [discriminate | tauto]|].
    split; [tauto|].
    split; [|tauto].
    intros _. eexists. split; [reflexivity|]. reflexivity.
Qed.

Lemma TransitionTo_matrix_witness :
  TransitionTo (NewConnection (any := unit) 0 "c1" "1.2.3.4:5678") StateOpen
  = (None, set_State (NewConnection 0 "c1" "1.2.3.4:5678") StateOpen)
  /\ exists e,
      TransitionTo (set_State (NewConnection (any := unit) 0 "c1" "1.2.3.4:5678")
                              StateClosed) StateOpen
      = (Some e, set_State (NewConnection 0 "c1" "1.2.3.4:5678") StateClosed)
      /\ errors_Is e ErrInvalidState = true.
Proof.
  split.
  - apply (TransitionTo_matrix
             (NewConnection (any := unit) 0 "c1" "1.2.3.4:5678") StateOpen).
    cbn. tauto.
  - apply (TransitionTo_matrix
             (set_State (NewConnection (any := unit) 0 "c1" "1.2.3.4:5678")
                        StateClosed) StateOpen).
    cbn. intros H. repeat destruct H as [H | H]; try discriminate H; exact H.
Defined.

(** An observed sequence: the lifecycle of the scenario "State lifecycle". *)
Example lifecycle_scenario :
  let c0 := NewConnection (any := unit) 0 "c1" "1.2.3.4:5678" in
  let '(e1, c1) := TransitionTo c0 StateOpen in
  let '(e2, c2) := TransitionTo c1 StateClosing in
  let '(e3, c3) := TransitionTo c2 StateClosed in
  (e1, e2, e3) = (None, None, None)
  /\ State c3 = StateClosed
  /\ Forall (fun s => fst (TransitionTo c3 s) <> None)
            [StateConnecting; StateOpen; StateClosing; StateClosed].
Proof. cbn. repeat split; repeat constructor; discriminate. Qed.

(** C9, as the code has it. [UpdateActivity] stamps [LastActivity] with the
    current time and changes no other field, whatever the state: also on a
    connection that is Closed. *)
Theorem UpdateActivity_stamps {any} (now : Time) (c : Connection any) :
  LastActivity (UpdateActivity now c) = now
  /\ ID (UpdateActivity now c) = ID c
  /\ RemoteAddr (UpdateActivity now c) = RemoteAddr c
  /\ State (UpdateActivity now c) = State c
  /\ Metadata (UpdateActivity now c) = Metadata c.
Proof. repeat split. Qed.

(** C9, as stated, fails: on a Closed connection [UpdateActivity] is not a
    no-op, the time stamp moves. *)
Lemma UpdateActivity_closed_not_noop :
  let c := set_State (NewConnection (any := unit) 0 "c1" "1.2.3.4:5678")
                     StateClosed in
  State c = StateClosed
  /\ UpdateActivity 1 c <> c
  /\ LastActivity (UpdateActivity 1 c) = 1
  /\ LastActivity c = 0.
Proof. cbn. repeat split. intros H. inversion H. Qed.

(** ** Messages *)

(** C10. [ToOpcode] is total: a text message maps to 0x1 and every other
    message to 0x2, also one whose type tag is neither Text nor Binary,
    which [Message_Validate] rejects. *)
Theorem ToOpcode_total (m : Message) :
  (Message_Type m = MessageTypeText -> ToOpcode m = 0x1)
  /\ (Message_Type m <> MessageTypeText -> ToOpcode m = 0x2)
  /\ (Message_Type m <> MessageTypeText ->
      Message_Type m <> MessageTypeBinary ->
      Message_Validate m = Some ErrInvalidMessageType
      /\ ToOpcode m = OpcodeBinary).
Proof.
  unfold ToOpcode, Message_Validate, MessageTypeText, MessageTypeBinary,
    OpcodeText, OpcodeBinary.
  destruct (Z.eqb_spec (Message_Type m) 0), (Z.eqb_spec (Message_Type m) 1);
    cbn; repeat split; intros; try reflexivity; try contradiction; try lia.
Qed.

Lemma ToOpcode_total_witness :
  ToOpcode (NewTextMessage [104; 105]) = 0x1
  /\ ToOpcode (NewBinaryMessage [1; 2]) = 0x2
  /\ Message_Validate {| Message_Type := 99; Message_Payload := [116] |}
     = Some ErrInvalidMessageType
  /\ ToOpcode {| Message_Type := 99; Message_Payload := [116] |}
     = OpcodeBinary.
Proof.
  split.
  { apply (proj1 (ToOpcode_total (NewTextMessage [104; 105]))).
    reflexivity. }
  split.
  { apply (proj1 (proj2 (ToOpcode_total (NewBinaryMessage [1; 2])))).
    vm_compute. discriminate. }
  apply (proj2 (proj2 (ToOpcode_total
           {| Message_Type := 99; Message_Payload := [116] |})));
    vm_compute; discriminate.
Defined.

(** ** Accept key *)

Lemma bytes_app (s t : string) : bytes (s ++ t) = bytes s ++ bytes t.
Proof.
  induction s as [|c s IH]; [reflexivity|].
  change (byte_of_ascii c :: bytes (s ++ t)
          = byte_of_ascii c :: (bytes s ++ bytes t)).
  now rewrite IH.
Qed.

Lemma sha1_Sum_length (data : list Z) : length (sha1_Sum data) = 20%nat.
Proof.
  unfold sha1_Sum.
  destruct (sha1_blocks _ _ _) as [[[[h0 h1] h2] h3] h4].
  reflexivity.
Qed.

(** Induction on a list three elements at a time, the way base64 consumes
    its input. *)
Lemma list_ind_by3 {A} (P : list A -> Prop) :
  P [] -> (forall a, P [a]) -> (forall a b, P [a; b]) ->
  (forall a b c l, P l -> P (a :: b :: c :: l)) ->
  forall l, P l.
Proof.
  intros H0 H1 H2 H3.
  fix IH 1.
  intros [|a [|b [|c l]]]; [exact H0 | apply H1 | apply H2 |].
  apply H3, IH.
Qed.

(** Four characters for every group of three octets, a last group of one or
    two octets padded to four characters. *)
Lemma EncodeToString_length (src : list Z) :
  Z.of_nat (String.length (EncodeToString src)) = 4 * ((len src + 2) / 3).
Proof.
  induction src as [|a|a b|a b c l IH] using list_ind_by3;
    try reflexivity.
  cbn [EncodeToString String.length].
  unfold len in *. cbn [length].
  replace (Z.of_nat (S (S (S (length l)))) + 2)
    with ((Z.of_nat (length l) + 2) + 1 * 3) by lia.
  rewrite Z.div_add by lia. lia.
Qed.



(** ** Frame codec: arithmetic of the header *)

Lemma land_shiftl_low (x y k : Z) :
  0 <= k -> 0 <= x < 2 ^ k -> Z.land x (Z.shiftl y k) = 0.
Proof.
  intros Hk [Hx0 Hxk].
  destruct (Z.eq_dec x 0) as [-> | Hne]; [apply Z.land_0_l|].
  apply Z.bits_inj'. intros n Hn.
  rewrite Z.land_spec, Z.bits_0.
  destruct (Z.lt_ge_cases n k) as [Hlt | Hge].
  - rewrite Z.shiftl_spec_low by assumption. apply andb_false_r.
  - rewrite (Z.bits_above_log2 x n); [reflexivity | assumption |].
    apply Z.lt_le_trans with k; [|assumption].
    apply Z.log2_lt_pow2; [|assumption].
    clear - Hx0 Hne. lia.
Qed.

Lemma lor_shiftl_add (x y k : Z) :
  0 <= k -> 0 <= x < 2 ^ k -> Z.lor x (Z.shiftl y k) = x + y * 2 ^ k.
Proof.
  intros Hk Hx.
  rewrite <- Z.lxor_lor by (apply land_shiftl_low; assumption).
  rewrite <- Z.add_nocarry_lxor by (apply land_shiftl_low; assumption).
  now rewrite Z.shiftl_mul_pow2.
Qed.

Lemma Uint16_sum (a b : Z) :
  is_byte a -> is_byte b -> Uint16 [a; b] = 256 * a + b.
Proof.
  unfold is_byte, Uint16, at_. intros Ha Hb. cbn [nth].
  rewrite lor_shiftl_add; lia.
Qed.

Lemma Uint64_sum (b0 b1 b2 b3 b4 b5 b6 b7 : Z) :
  is_byte b0 -> is_byte b1 -> is_byte b2 -> is_byte b3 ->
  is_byte b4 -> is_byte b5 -> is_byte b6 -> is_byte b7 ->
  Uint64 [b0; b1; b2; b3; b4; b5; b6; b7]
  = 2 ^ 56 * b0 + 2 ^ 48 * b1 + 2 ^ 40 * b2 + 2 ^ 32 * b3
    + 2 ^ 24 * b4 + 2 ^ 16 * b5 + 2 ^ 8 * b6 + b7.
Proof.
  unfold is_byte, Uint64, at_. intros. cbn [nth].
  repeat match goal with
         | |- context [Z.lor ?x (Z.shiftl ?y ?k)] =>
             lazymatch x with
             | context [Z.lor] => fail
             | _ => rewrite (lor_shiftl_add x y k) by lia
             end
         end.
  lia.
Qed.

Lemma PutUint16_bytes (v : Z) :
  0 <= v <= 65535 -> PutUint16 (uint16 v) = [v / 256; v mod 256].
Proof.
  intros Hv. unfold PutUint16, uint16, byte.
  rewrite Z.shiftr_div_pow2 by lia.
  rewrite (Z.mod_small v 65536) by lia.
  change (2 ^ 8) with 256.
  rewrite (Z.mod_small (v / 256)); [reflexivity|].
  split; [apply Z.div_pos; lia | apply Z.div_lt_upper_bound; lia].
Qed.

Lemma PutUint64_bytes (v : Z) :
  0 <= v < 2 ^ 64 ->
  PutUint64 v = [v / 2 ^ 56; v / 2 ^ 48 mod 256; v / 2 ^ 40 mod 256;
       v / 2 ^ 32 mod 256; v / 2 ^ 24 mod 256; v / 2 ^ 16 mod 256;
       v / 2 ^ 8 mod 256; v mod 256].
Proof.
  intros Hv. unfold PutUint64, byte.
  rewrite !Z.shiftr_div_pow2 by lia.
  rewrite (Z.mod_small (v / 2 ^ 56)); [reflexivity|].
  split; [apply Z.div_pos; lia | apply Z.div_lt_upper_bound; lia].
Qed.

Lemma be64_sum (v : Z) :
  0 <= v < 2 ^ 64 ->
  2 ^ 56 * (v / 2 ^ 56) + 2 ^ 48 * (v / 2 ^ 48 mod 256)
  + 2 ^ 40 * (v / 2 ^ 40 mod 256) + 2 ^ 32 * (v / 2 ^ 32 mod 256)
  + 2 ^ 24 * (v / 2 ^ 24 mod 256) + 2 ^ 16 * (v / 2 ^ 16 mod 256)
  + 2 ^ 8 * (v / 2 ^ 8 mod 256) + v mod 256 = v.
Proof.
  intros Hv.
  change (2^64) with 18446744073709551616 in Hv.
  change (2^56) with 72057594037927936; change (2^48) with 281474976710656;
  change (2^40) with 1099511627776; change (2^32) with 4294967296;
  change (2^24) with 16777216; change (2^16) with 65536; change (2^8) with 256.
  Z.div_mod_to_equations. lia.
Qed.

(** ** Frame codec: reading *)

Lemma ReadFull_app (n : Z) (l r : list Z) :
  len l = n -> 0 < n -> ReadFull n (l ++ r) = (Ok l, r).
Proof.
  unfold ReadFull, len. intros Hl Hn.
  destruct (Z.leb_spec n 0); [lia|].
  rewrite length_app.
  destruct (Z.ltb_spec (Z.of_nat (length l + length r)) n); [lia|].
  replace (Z.to_nat n) with (length l) by lia.
  now rewrite take_app_length, drop_app_length.
Qed.

Lemma ReadFrame_checks (fp : FrameParser) (h0 : Z) (s : list Z) (v : Z)
    (rest : list Z) :
  declares s v rest ->
  ReadFrame fp (h0 :: s) =
    let fin := negb (Z.land h0 0x80 =? 0) in
    let opcode := Z.land h0 0x0F in
    let masked := negb (Z.land (hd 0 s) 0x80 =? 0) in
    if negb (IsControl opcode) && negb (IsData opcode) then
      (Err ErrInvalidOpcode, tl s)
    else if negb (Z.land h0 0x40 =? 0) || negb (Z.land h0 0x20 =? 0)
            || negb (Z.land h0 0x10 =? 0) then
      (Err ErrReservedBitsSet, tl s)
    else if v >? maxPayloadSize fp then (Err ErrPayloadTooLarge, rest)
    else if IsControl opcode && (v >? 125) then
      (Err ErrInvalidFrameStructure, rest)
    else if IsControl opcode && negb fin then
      (Err ErrInvalidFrameStructure, rest)
    else read_body fp fin opcode masked v rest.
Proof.
  intros Hd. cbv zeta.
  assert (Hhdr : exists h1 s', s = h1 :: s') by (destruct Hd; eauto).
  destruct Hhdr as (h1 & s' & ->). cbn [hd tl].
  unfold ReadFrame, bind at 1.
  change (h0 :: h1 :: s') with ([h0; h1] ++ s').
  rewrite ReadFull_app by (reflexivity || lia).
  cbn [at_ nth].
  destruct (negb (IsControl (Z.land h0 15)) && negb (IsData (Z.land h0 15)));
    [reflexivity|].
  destruct (Z.land h0 64 =? 0), (Z.land h0 32 =? 0), (Z.land h0 16 =? 0);
    cbn [negb orb]; try reflexivity.
  assert (Hlen : parsePayloadLength fp (Z.land h1 127) s' = (Ok v, rest)).
  { unfold parsePayloadLength, protocol.PayloadLen16Bit,
      protocol.PayloadLen64Bit.
    inversion Hd; subst.
    - destruct (Z.eqb_spec (Z.land h1 127) 126); [lia|].
      destruct (Z.eqb_spec (Z.land h1 127) 127); [lia|]. reflexivity.
    - destruct (Z.eqb_spec (Z.land h1 127) 126); [|lia].
      unfold bind. change (a :: b :: rest) with ([a; b] ++ rest).
      rewrite ReadFull_app by (reflexivity || lia).
      unfold ret. now rewrite Uint16_sum.
    - destruct (Z.eqb_spec (Z.land h1 127) 126); [lia|].
      destruct (Z.eqb_spec (Z.land h1 127) 127); [|lia].
      unfold bind.
      change (b0 :: b1 :: b2 :: b3 :: b4 :: b5 :: b6 :: b7 :: rest)
        with ([b0; b1; b2; b3; b4; b5; b6; b7] ++ rest).
      rewrite ReadFull_app by (reflexivity || lia).
      unfold ret. now rewrite Uint64_sum. }
  unfold bind at 1. rewrite Hlen.
  destruct (v >? maxPayloadSize fp); [reflexivity|].
  destruct (IsControl (Z.land h0 15) && (v >? 125)); [reflexivity|].
  destruct (IsControl (Z.land h0 15) && negb (negb (Z.land h0 128 =? 0)));
    [reflexivity|].
  reflexivity.
Qed.

(** ** Frame codec: masking *)

Lemma at_lookup (l : list Z) (i : nat) : at_ l i = default 0 (l !! i).
Proof. apply nth_lookup. Qed.

Lemma unmask_loop_lookup (f : nat -> Z -> Z) (n i : nat) (p : list Z) (j : nat) :
  foldl (fun (q : list Z) (i : nat) => <[ i := f i (at_ q i) ]> q) p (seq i n)
    !! j
  = if bool_decide (i <= j < i + n)%nat then f j <$> p !! j else p !! j.
Proof.
  revert i p. induction n as [|n IH]; intros i p; cbn [seq foldl].
  - rewrite bool_decide_eq_false_2 by lia. reflexivity.
  - rewrite IH.
    destruct (decide (j = i)) as [-> | Hne].
    + rewrite bool_decide_eq_false_2 by lia.
      rewrite bool_decide_eq_true_2 by lia.
      destruct (p !! i) as [b|] eqn:Hp.
      * rewrite list_lookup_insert_eq by (eapply lookup_lt_Some; eassumption).
        rewrite at_lookup, Hp. reflexivity.
      * rewrite list_insert_ge by (apply lookup_ge_None; assumption).
        rewrite Hp. reflexivity.
    + rewrite list_lookup_insert_ne by congruence.
      destruct (decide (S i <= j < S i + n)%nat).
      * rewrite !bool_decide_eq_true_2 by lia. reflexivity.
      * rewrite !bool_decide_eq_false_2 by lia. reflexivity.
Qed.

Lemma UnmaskPayload_xor_mask (fp : FrameParser) (payload : list Z) (key : Key4) :
  UnmaskPayload fp payload key = xor_mask key payload.
Proof.
  apply list_eq. intros j. unfold UnmaskPayload, xor_mask.
  rewrite (unmask_loop_lookup
             (fun i b => Z.lxor b (key_at key (i mod 4)))).
  rewrite list_lookup_imap.
  destruct (decide (j < length payload)%nat) as [Hlt | Hge].
  - rewrite bool_decide_eq_true_2 by lia. reflexivity.
  - rewrite bool_decide_eq_false_2 by lia.
    rewrite lookup_ge_None_2 by lia. reflexivity.
Qed.

Lemma xor_mask_length (key : Key4) (payload : list Z) :
  length (xor_mask key payload) = length payload.
Proof. apply length_imap. Qed.

Lemma xor_mask_involutive (key : Key4) (payload : list Z) :
  xor_mask key (xor_mask key payload) = payload.
Proof.
  apply list_eq. intros j. unfold xor_mask.
  rewrite !list_lookup_imap.
  destruct (payload !! j) as [b|]; cbn; [|reflexivity].
  now rewrite Z.lxor_assoc, Z.lxor_nilpotent, Z.lxor_0_r.
Qed.

(** X1. Masking is its own inverse: [UnmaskPayload] applied twice with the
    same key gives the buffer back, whatever the buffer and the key. *)
Lemma UnmaskPayload_involutive (fp : FrameParser) (payload : list Z)
    (key : Key4) :
  UnmaskPayload fp (UnmaskPayload fp payload key) key = payload.
Proof. rewrite !UnmaskPayload_xor_mask. apply xor_mask_involutive. Qed.

Lemma key_of_key_bytes (k : Key4) : key_of (key_bytes k) = k.
Proof. destruct k as [[[k0 k1] k2] k3]. reflexivity. Qed.

Lemma key_bytes_length (k : Key4) : len (key_bytes k) = 4.
Proof. destruct k as [[[k0 k1] k2] k3]. reflexivity. Qed.

Lemma read_body_masked (fp : FrameParser) (fin : bool) (opcode : Opcode)
    (v : Z) (key : Key4) (wire rest : list Z) :
  len wire = v ->
  read_body fp fin opcode true v (key_bytes key ++ wire ++ rest)
  = (Ok {| FIN := fin; RSV1 := false; RSV2 := false; RSV3 := false;
           Opcode_ := opcode; Masked := true; PayloadLen := v;
           MaskingKey := key; Payload := xor_mask key wire |}, rest).
Proof.
  intros Hv. unfold read_body, bind.
  rewrite ReadFull_app by (apply key_bytes_length || lia).
  unfold ret at 1. rewrite key_of_key_bytes.
  destruct (Z.gtb_spec v 0) as [Hpos | Hzero].
  - rewrite ReadFull_app by (assumption || lia).
    unfold ret. now rewrite UnmaskPayload_xor_mask.
  - assert (wire = []) as -> by (destruct wire; [reflexivity | unfold len in Hv; cbn [length] in Hv; lia]).
    reflexivity.
Qed.

Lemma read_body_unmasked (fp : FrameParser) (fin : bool) (opcode : Opcode)
    (v : Z) (wire rest : list Z) :
  len wire = v ->
  read_body fp fin opcode false v (wire ++ rest)
  = (Ok {| FIN := fin; RSV1 := false; RSV2 := false; RSV3 := false;
           Opcode_ := opcode; Masked := false; PayloadLen := v;
           MaskingKey := zero_key; Payload := wire |}, rest).
Proof.
  intros Hv. unfold read_body, bind. unfold ret at 1.
  destruct (Z.gtb_spec v 0) as [Hpos | Hzero].
  - rewrite ReadFull_app by (assumption || lia). reflexivity.
  - assert (wire = []) as -> by (destruct wire; [reflexivity | unfold len in Hv; cbn [length] in Hv; lia]).
    reflexivity.
Qed.

(** ** Frame codec: validity and the two header octets *)

Lemma byte_forall (P : Z -> bool) :
  forallb P (map Z.of_nat (seq 0 256)) = true ->
  forall b, is_byte b -> P b = true.
Proof.
  intros H b Hb. rewrite forallb_forall in H. apply H.
  apply in_map_iff. exists (Z.to_nat b). split; [unfold is_byte in Hb; lia|].
  apply in_seq. unfold is_byte in Hb. lia.
Qed.

Lemma second_octet_parse (m l7 : Z) :
  m = 0 \/ m = 128 -> 0 <= l7 <= 127 ->
  Z.land (m + l7) 0x7F = l7
  /\ negb (Z.land (m + l7) 0x80 =? 0) = negb (m =? 0).
Proof.
  intros Hm Hl.
  assert (Hb : is_byte (m + l7)) by (unfold is_byte; lia).
  pose proof (byte_forall
    (fun b => (Z.land b 0x7F =? b mod 128)
              && Bool.eqb (Z.land b 0x80 =? 0) (b <? 128))
    eq_refl _ Hb) as H.
  apply andb_true_iff in H as [H1 H2].
  apply Z.eqb_eq in H1. apply Bool.eqb_prop in H2.
  rewrite H1, H2. split.
  - destruct Hm as [-> | ->]; [apply Z.mod_small; lia|].
    replace (128 + l7) with (l7 + 1 * 128) by lia.
    rewrite Z.mod_add by lia. apply Z.mod_small; lia.
  - destruct Hm as [-> | ->]; cbn [Z.eqb negb];
      destruct (Z.ltb_spec (0 + l7) 128), (Z.ltb_spec (128 + l7) 128);
      try reflexivity; lia.
Qed.

Lemma isValidOpcode_In {B} (f : Frame_ B) :
  isValidOpcode f = true <-> In (Opcode_ f) valid_opcodes.
Proof.
  unfold isValidOpcode, valid_opcodes. cbn [In].
  rewrite !orb_true_iff, !Z.eqb_eq.
  intuition (try contradiction; auto).
Qed.

Lemma Validate_structurally_valid (f : Frame) :
  Validate f = None <-> structurally_valid f.
Proof.
  unfold Validate, structurally_valid.
  rewrite <- isValidOpcode_In.
  destruct (isValidOpcode f); cbn [negb];
    [|split; [discriminate | intros [Hop _]; discriminate]].
  destruct (RSV1 f); cbn [orb];
    [split; [discriminate | intros (_ & Hr & _); discriminate]|].
  destruct (RSV2 f); cbn [orb];
    [split; [discriminate | intros (_ & _ & Hr & _); discriminate]|].
  destruct (RSV3 f); cbn [orb];
    [split; [discriminate | intros (_ & _ & _ & Hr & _); discriminate]|].
  destruct (IsControl (Opcode_ f)); cbn [andb].
  - destruct (Z.gtb_spec (PayloadLen f) 125) as [Hgt | Hle].
    { split; [discriminate|]. intros (_ & _ & _ & _ & Hc & _).
      destruct (Hc eq_refl). lia. }
    destruct (FIN f); cbn [negb].
    + destruct (Z.eqb_spec (len (Payload f)) (PayloadLen f)); cbn [negb].
      * intuition.
      * split; [discriminate|]. intros (_ & _ & _ & _ & _ & Hl). contradiction.
    + split; [discriminate|]. intros (_ & _ & _ & _ & Hc & _).
      destruct (Hc eq_refl). discriminate.
  - destruct (Z.eqb_spec (len (Payload f)) (PayloadLen f)); cbn [negb].
    + intuition discriminate.
    + split; [discriminate|]. intros (_ & _ & _ & _ & _ & Hl). contradiction.
Qed.

(** ** Frame codec: the octets that are written *)

Lemma first_octet_written (f : Frame) :
  structurally_valid f ->
  first_byte f = first_octet f.
Proof.
  intros (Hop & Hr1 & Hr2 & Hr3 & _). unfold first_octet, first_byte.
  rewrite Hr1, Hr2, Hr3. cbv zeta.
  unfold valid_opcodes in Hop. cbn [In] in Hop.
  destruct (FIN f);
    repeat (destruct Hop as [<- | Hop]; [reflexivity|]); contradiction.
Qed.

Lemma first_octet_parse (f : Frame) :
  structurally_valid f ->
  Z.land (first_octet f) 0x0F = Opcode_ f
  /\ negb (Z.land (first_octet f) 0x80 =? 0) = FIN f
  /\ (Z.land (first_octet f) 0x40 =? 0) = true
  /\ (Z.land (first_octet f) 0x20 =? 0) = true
  /\ (Z.land (first_octet f) 0x10 =? 0) = true.
Proof.
  intros (Hop & _). unfold first_octet.
  unfold valid_opcodes in Hop. cbn [In] in Hop.
  destruct (FIN f);
    repeat (destruct Hop as [<- | Hop]; [repeat split|]); contradiction.
Qed.

Lemma second_octet_written (masked : bool) (l7 : Z) :
  0 <= l7 <= 127 ->
  Z.lor (if masked then Z.lor 0 0x80 else 0) l7
  = (if masked then 128 else 0) + l7.
Proof.
  intros Hl. destruct masked; [|reflexivity].
  change (Z.lor 0 128) with (Z.shiftl 1 7).
  rewrite Z.lor_comm, lor_shiftl_add by lia. lia.
Qed.

Lemma frame_header_shape (f : Frame) :
  structurally_valid f -> PayloadLen f < 2 ^ 64 ->
  exists l7 ext,
    minimal_length_field (PayloadLen f) l7 ext
    /\ frame_header f
       = [first_octet f; mask_bit f + l7] ++ ext
         ++ (if Masked f then key_bytes (MaskingKey f) else []).
Proof.
  intros Hv Hmax.
  pose proof (first_octet_written f Hv) as Hfirst.
  assert (H0 : 0 <= PayloadLen f).
  { destruct Hv as (_ & _ & _ & _ & _ & <-). unfold len. lia. }
  unfold frame_header. cbv zeta. rewrite Hfirst. unfold mask_bit.
  unfold protocol.PayloadLen16Bit, protocol.PayloadLen64Bit.
  destruct (Z.leb_spec (PayloadLen f) 125) as [H125 | H125].
  - exists (PayloadLen f), [].
    split; [repeat split; try lia; constructor; lia|].
    unfold byte. rewrite Z.mod_small by lia.
    rewrite second_octet_written by lia.
    destruct (Masked f); cbn [app]; reflexivity.
  - destruct (Z.leb_spec (PayloadLen f) 65535) as [H64k | H64k].
    + exists 126, [PayloadLen f / 256; PayloadLen f mod 256].
      split; [repeat split; try lia; constructor; lia|].
      rewrite PutUint16_bytes by lia.
      rewrite second_octet_written by lia.
      destruct (Masked f); cbn [app]; reflexivity.
    + exists 127, [PayloadLen f / 2 ^ 56; PayloadLen f / 2 ^ 48 mod 256;
                   PayloadLen f / 2 ^ 40 mod 256; PayloadLen f / 2 ^ 32 mod 256;
                   PayloadLen f / 2 ^ 24 mod 256; PayloadLen f / 2 ^ 16 mod 256;
                   PayloadLen f / 2 ^ 8 mod 256; PayloadLen f mod 256].
      split; [repeat split; try lia; constructor; lia|].
      rewrite PutUint64_bytes by lia.
      rewrite second_octet_written by lia.
      destruct (Masked f); cbn [app]; reflexivity.
Qed.

Lemma WriteFrame_shape (fp : FrameParser) (w : list Z) (f : Frame) :
  structurally_valid f -> PayloadLen f < 2 ^ 64 ->
  exists l7 ext,
    minimal_length_field (PayloadLen f) l7 ext
    /\ WriteFrame fp w f
       = (None, w ++ [first_octet f; mask_bit f + l7] ++ ext ++ wire_body f).
Proof.
  intros Hv Hmax.
  destruct (frame_header_shape f Hv Hmax) as (l7 & ext & Hmin & Hhdr).
  exists l7, ext. split; [assumption|].
  unfold WriteFrame. rewrite (proj2 (Validate_structurally_valid f) Hv).
  rewrite Hhdr. unfold wire_body.
  rewrite UnmaskPayload_xor_mask.
  destruct (Z.gtb_spec (len (Payload f)) 0) as [Hpos | Hzero].
  - destruct (Masked f); f_equal; rewrite <- ?app_assoc; cbn [app];
      rewrite ?app_nil_r; reflexivity.
  - assert (Payload f = []) as ->.
    { destruct (Payload f); [reflexivity | unfold len in Hzero; cbn [length] in Hzero; lia]. }
    destruct (Masked f); f_equal; cbn [app xor_mask imap];
      rewrite ?app_nil_r; try reflexivity.
Qed.

(** ** Frame codec: reading what was written *)

Lemma div_byte (v k : Z) : 0 <= v < 256 * k -> 0 < k -> is_byte (v / k).
Proof.
  intros Hv Hk. split; [apply Z.div_pos; lia|].
  apply Z.div_lt_upper_bound; lia.
Qed.

Lemma mod_byte (v : Z) : is_byte (v mod 256).
Proof. unfold is_byte. pose proof (Z.mod_pos_bound v 256). lia. Qed.

Lemma length_field_declares (v l7 : Z) (ext : list Z) (m : Z) (rest : list Z) :
  length_field v l7 ext -> m = 0 \/ m = 128 ->
  declares ((m + l7) :: ext ++ rest) v rest.
Proof.
  intros Hlf Hm. destruct Hlf as [Hv | Hv | Hv].
  - destruct (second_octet_parse m v Hm) as [Hl _]; [lia|].
    cbn [app]. rewrite <- Hl at 2. constructor. lia.
  - destruct (second_octet_parse m 126 Hm) as [Hl _]; [lia|].
    cbn [app].
    replace v with (256 * (v / 256) + v mod 256) at 3
      by (symmetry; apply Z.div_mod; lia).
    constructor; [assumption | apply div_byte; lia | apply mod_byte].
  - destruct (second_octet_parse m 127 Hm) as [Hl _]; [lia|].
    cbn [app].
    rewrite <- (be64_sum v Hv) at 9.
    constructor; try assumption; try apply mod_byte.
    apply div_byte; [|lia].
    change (256 * 2 ^ 56) with (2 ^ 64). assumption.
Qed.

Lemma as_decoded_fields (f : Frame) :
  FIN (as_decoded f) = FIN f
  /\ RSV1 (as_decoded f) = RSV1 f
  /\ RSV2 (as_decoded f) = RSV2 f
  /\ RSV3 (as_decoded f) = RSV3 f
  /\ Opcode_ (as_decoded f) = Opcode_ f
  /\ Masked (as_decoded f) = Masked f
  /\ PayloadLen (as_decoded f) = PayloadLen f
  /\ Payload (as_decoded f) = Payload f
  /\ MaskingKey (as_decoded f)
     = (if Masked f then MaskingKey f else zero_key).
Proof.
  destruct f as [fin r1 r2 r3 op masked plen key payload].
  unfold as_decoded, without_key.
  cbn [FIN RSV1 RSV2 RSV3 Opcode_ Masked PayloadLen MaskingKey Payload].
  destruct masked; repeat split.
Qed.

(** Any of the three encodings of the declared length is read back. *)
Lemma ReadFrame_encoded (fp : FrameParser) (f : Frame) (l7 : Z)
    (ext rest : list Z) :
  structurally_valid f ->
  PayloadLen f <= maxPayloadSize fp ->
  length_field (PayloadLen f) l7 ext ->
  ReadFrame fp ([first_octet f; mask_bit f + l7] ++ ext ++ wire_body f ++ rest)
  = (Ok (as_decoded f), rest).
Proof.
  intros Hv Hmax Hlf.
  assert (Hm : mask_bit f = 0 \/ mask_bit f = 128)
    by (unfold mask_bit; destruct (Masked f); auto).
  pose proof (length_field_declares _ _ _ _ (wire_body f ++ rest) Hlf Hm) as Hd.
  assert (Hl7 : 0 <= l7 <= 127) by (destruct Hlf; lia).
  destruct (second_octet_parse _ _ Hm Hl7) as [_ Hmask].
  destruct (first_octet_parse f Hv) as (Hop & Hfin & Hr1 & Hr2 & Hr3).
  cbn [app]. rewrite (ReadFrame_checks fp _ _ _ _ Hd). cbv zeta.
  cbn [hd]. rewrite Hop, Hfin, Hr1, Hr2, Hr3, Hmask.
  destruct Hv as (Hin & Hv1 & Hv2 & Hv3 & Hctl & Hlen).
  assert (Hopc : negb (IsControl (Opcode_ f)) && negb (IsData (Opcode_ f))
                 = false).
  { unfold valid_opcodes in Hin. cbn [In] in Hin.
    repeat (destruct Hin as [<- | Hin]; [reflexivity|]). contradiction. }
  rewrite Hopc. cbn [negb orb].
  destruct (Z.gtb_spec (PayloadLen f) (maxPayloadSize fp)); [lia|].
  assert (Hc1 : IsControl (Opcode_ f) && (PayloadLen f >? 125) = false).
  { destruct (IsControl (Opcode_ f)); [|reflexivity].
    destruct (Hctl eq_refl) as [H125 _].
    destruct (Z.gtb_spec (PayloadLen f) 125); [lia | reflexivity]. }
  assert (Hc2 : IsControl (Opcode_ f) && negb (FIN f) = false).
  { destruct (IsControl (Opcode_ f)); [|reflexivity].
    destruct (Hctl eq_refl) as [_ ->]. reflexivity. }
  rewrite Hc1, Hc2.
  unfold wire_body, as_decoded, mask_bit, without_key.
  destruct f as [fin r1 r2 r3 op masked plen key payload].
  cbn [FIN RSV1 RSV2 RSV3 Opcode_ Masked PayloadLen MaskingKey Payload] in *.
  subst r1 r2 r3.
  destruct masked; cbn [Z.eqb negb].
  - rewrite <- app_assoc.
    rewrite read_body_masked
      by (unfold len in *; rewrite xor_mask_length; assumption).
    now rewrite xor_mask_involutive.
  - now rewrite read_body_unmasked by assumption.
Qed.

Lemma WriteFrame_accepts (fp : FrameParser) (w : list Z) (f : Frame) :
  fst (WriteFrame fp w f) = None <-> structurally_valid f.
Proof.
  rewrite <- Validate_structurally_valid. unfold WriteFrame.
  destruct (Validate f) as [e|]; cbn [fst].
  - split; discriminate.
  - destruct (len (Payload f) >? 0); cbn [fst]; tauto.
Qed.

(** ** Frame codec: the claims *)

(** C1, as the code has it. A structurally valid frame (recognized opcode,
    no reserved bit, payload of the declared length, a control frame final
    and of at most 125 octets) whose payload length does not exceed the
    maximum of the codec is written without error, and reading the octets
    written gives back the frame, field by field and octet by octet: every
    field of a masked frame; every field but the masking key of an unmasked
    frame, whose key is not on the wire and reads as four zero octets. *)
Theorem WriteFrame_ReadFrame_roundtrip (fp : FrameParser) (f : Frame)
    (w rest : list Z) :
  structurally_valid f ->
  PayloadLen f <= maxPayloadSize fp ->
  maxPayloadSize fp < 2 ^ 64 ->
  exists octets g,
    WriteFrame fp w f = (None, w ++ octets)
    /\ ReadFrame fp (octets ++ rest) = (Ok g, rest)
    /\ FIN g = FIN f /\ RSV1 g = RSV1 f /\ RSV2 g = RSV2 f
    /\ RSV3 g = RSV3 f /\ Opcode_ g = Opcode_ f /\ Masked g = Masked f
    /\ PayloadLen g = PayloadLen f /\ Payload g = Payload f
    /\ MaskingKey g = (if Masked f then MaskingKey f else zero_key)
    /\ (Masked f = true \/ MaskingKey f = zero_key -> g = f).
Proof.
  intros Hv Hle Hmax.
  destruct (WriteFrame_shape fp w f Hv) as (l7 & ext & Hmin & Hw); [lia|].
  exists ([first_octet f; mask_bit f + l7] ++ ext ++ wire_body f),
    (as_decoded f).
  split; [exact Hw|].
  split.
  { rewrite <- !app_assoc.
    apply ReadFrame_encoded; [assumption | assumption | apply Hmin]. }
  pose proof (as_decoded_fields f) as Hf.
  repeat (split; [apply Hf|]).
  unfold as_decoded, without_key.
  destruct f as [fin r1 r2 r3 op masked plen key payload].
  cbn [FIN RSV1 RSV2 RSV3 Opcode_ Masked PayloadLen MaskingKey Payload].
  intros [-> | ->]; [reflexivity|]. destruct masked; reflexivity.
Qed.

Lemma WriteFrame_ReadFrame_roundtrip_witness :
  exists octets g,
    WriteFrame (NewFrameParser 0) []
      {| FIN := true; RSV1 := false; RSV2 := false; RSV3 := false;
         Opcode_ := OpcodeText; Masked := true; PayloadLen := 5;
         MaskingKey := (0x37, 0xFA, 0x21, 0x3D);
         Payload := [72; 101; 108; 108; 111] |} = (None, [] ++ octets)
    /\ ReadFrame (NewFrameParser 0) (octets ++ []) = (Ok g, [])
    /\ Payload g = [72; 101; 108; 108; 111]
    /\ MaskingKey g = (0x37, 0xFA, 0x21, 0x3D).
Proof.
  destruct (WriteFrame_ReadFrame_roundtrip (NewFrameParser 0)
              {| FIN := true; RSV1 := false; RSV2 := false; RSV3 := false;
                 Opcode_ := OpcodeText; Masked := true; PayloadLen := 5;
                 MaskingKey := (0x37, 0xFA, 0x21, 0x3D);
                 Payload := [72; 101; 108; 108; 111] |} [] [])
    as (octets & g & Hw & Hr & _ & _ & _ & _ & _ & _ & _ & Hp & Hk & _).
  - unfold structurally_valid. cbn.
    repeat split; try reflexivity; try discriminate. right. left. reflexivity.
  - vm_compute. discriminate.
  - vm_compute. reflexivity.
  - exists octets, g. repeat split; assumption.
Defined.

(** C1, as stated, fails: an unmasked frame that carries a masking key is
    structurally valid and within the size limit, and it is read back with
    a zero masking key, so not equal to the frame written. *)
Lemma roundtrip_loses_unused_key :
  let fp := NewFrameParser 0 in
  let f := {| FIN := true; RSV1 := false; RSV2 := false; RSV3 := false;
              Opcode_ := OpcodeText; Masked := false; PayloadLen := 2;
              MaskingKey := (1, 2, 3, 4); Payload := [72; 105] |} in
  structurally_valid f
  /\ PayloadLen f <= maxPayloadSize fp
  /\ exists octets g,
      WriteFrame fp [] f = (None, octets)
      /\ ReadFrame fp octets = (Ok g, [])
      /\ MaskingKey g = zero_key
      /\ g <> f.
Proof.
  cbv zeta. split.
  { unfold structurally_valid. cbn.
    repeat split; try reflexivity; try discriminate. right. left. reflexivity. }
  split; [vm_compute; discriminate|].
  eexists. eexists.
  split; [vm_compute; reflexivity|].
  split; [vm_compute; reflexivity|].
  split; [reflexivity|]. intros H. inversion H.
Qed.




(** C5: what the code does on an opcode outside the recognized set. The
    read path tests [IsControl] and [IsData], so the opcodes 0xB to 0xF
    pass its opcode check: the two octets 0x8B 0x00 are read as a frame of
    opcode 0xB, a frame that [Validate] rejects with ErrInvalidOpcode. The
    opcodes 0x3 to 0x7 are rejected with ErrInvalidOpcode. *)
Theorem ReadFrame_accepts_opcode_0xB :
  ReadFrame (NewFrameParser 0) [0x8B; 0x00]
  = (Ok {| FIN := true; RSV1 := false; RSV2 := false; RSV3 := false;
           Opcode_ := 0xB; Masked := false; PayloadLen := 0;
           MaskingKey := zero_key; Payload := [] |}, [])
  /\ ~ In 0xB valid_opcodes
  /\ Validate {| FIN := true; RSV1 := false; RSV2 := false; RSV3 := false;
                 Opcode_ := 0xB; Masked := false; PayloadLen := 0;
                 MaskingKey := zero_key; Payload := [] |}
     = Some ErrInvalidOpcode
  /\ ReadFrame (NewFrameParser 0) [0x83; 0x00] = (Err ErrInvalidOpcode, [])
  /\ Forall (fun o => exists g,
                 ReadFrame (NewFrameParser 0) [0x80 + o; 0x00] = (Ok g, [])
                 /\ Opcode_ g = o /\ Validate g = Some ErrInvalidOpcode)
            [0xB; 0xC; 0xD; 0xE; 0xF].
Proof.
  split; [vm_compute; reflexivity|].
  split.
  { unfold valid_opcodes. cbn [In].
    intros H. repeat destruct H as [H | H]; try discriminate H; exact H. }
  split; [vm_compute; reflexivity|].
  split; [vm_compute; reflexivity|].
  repeat constructor; eexists; (split; [vm_compute; reflexivity|]);
    split; vm_compute; reflexivity.
Qed.

(** The order of the checks of the read path, on a header that is complete:
    opcode (as the read path tests it), reserved bits, size limit, shape of
    a control frame; the first check that fails gives the error. *)
Lemma ReadFrame_first_failure (fp : FrameParser) (h0 : Z) (s : list Z)
    (v : Z) (rest : list Z) :
  declares s v rest ->
  let opcode := Z.land h0 0x0F in
  let fin := negb (Z.land h0 0x80 =? 0) in
  let rsv := negb (Z.land h0 0x40 =? 0) || negb (Z.land h0 0x20 =? 0)
             || negb (Z.land h0 0x10 =? 0) in
  let bad_opcode := negb (IsControl opcode) && negb (IsData opcode) in
  let too_large := v >? maxPayloadSize fp in
  let bad_control := IsControl opcode && ((v >? 125) || negb fin) in
  fst (ReadFrame fp (h0 :: s)) =
    if bad_opcode then Err ErrInvalidOpcode
    else if rsv then Err ErrReservedBitsSet
    else if too_large then Err ErrPayloadTooLarge
    else if bad_control then Err ErrInvalidFrameStructure
    else fst (read_body fp fin opcode (negb (Z.land (hd 0 s) 0x80 =? 0)) v
                        rest).
Proof.
  intros Hd. cbv zeta. rewrite (ReadFrame_checks fp h0 s v rest Hd). cbv zeta.
  destruct (negb (IsControl (Z.land h0 15)) && negb (IsData (Z.land h0 15)));
    [reflexivity|].
  destruct (negb (Z.land h0 64 =? 0) || negb (Z.land h0 32 =? 0)
            || negb (Z.land h0 16 =? 0)); [reflexivity|].
  destruct (v >? maxPayloadSize fp); [reflexivity|].
  destruct (IsControl (Z.land h0 15)); cbn [andb]; [|reflexivity].
  destruct (v >? 125); cbn [orb]; [reflexivity|].
  destruct (negb (negb (Z.land h0 128 =? 0))); reflexivity.
Qed.

(** The opcodes of a header octet that the read path lets through. *)
Lemma ReadFrame_opcode_check (h0 : Z) :
  negb (IsControl (Z.land h0 0x0F)) && negb (IsData (Z.land h0 0x0F)) = false
  <-> In (Z.land h0 0x0F) (valid_opcodes ++ [0xB; 0xC; 0xD; 0xE; 0xF]).
Proof.
  assert (H16 : 0 <= Z.land h0 15 < 16).
  { change 15 with (Z.ones 4). rewrite Z.land_ones by lia.
    apply Z.mod_pos_bound. lia. }
  unfold IsControl, IsData, valid_opcodes, OpcodeContinuation, OpcodeText,
    OpcodeBinary, OpcodeClose, OpcodePing, OpcodePong.
  cbn [app In].
  destruct (Z.geb_spec (Z.land h0 15) 8) as [Hge | Hlt],
           (Z.leb_spec (Z.land h0 15) 2) as [Hle | Hgt];
    cbn [negb andb]; split; intros Hin; try reflexivity; try discriminate;
    lia.
Qed.

(** C7. A frame that [WriteFrame] accepts is written with the narrowest
    length field: the length itself up to 125; the marker 126 and two
    octets, high then low, from 126 to 65535; the marker 127 and eight
    octets, high to low, above. And [ReadFrame] reads the frame back from
    any of the three encodings of its length, minimal or not, with the
    decoded value as [PayloadLen]. *)
Theorem length_encoding (fp : FrameParser) (f : Frame) (w rest : list Z) :
  fst (WriteFrame fp w f) = None ->
  PayloadLen f < 2 ^ 64 ->
  (exists l7 ext,
      minimal_length_field (PayloadLen f) l7 ext
      /\ WriteFrame fp w f
         = (None, w ++ [first_octet f; mask_bit f + l7] ++ ext
                    ++ wire_body f))
  /\ (forall l7 ext,
        length_field (PayloadLen f) l7 ext ->
        PayloadLen f <= maxPayloadSize fp ->
        exists g,
          ReadFrame fp ([first_octet f; mask_bit f + l7] ++ ext
                          ++ wire_body f ++ rest) = (Ok g, rest)
          /\ PayloadLen g = PayloadLen f
          /\ Payload g = Payload f
          /\ Opcode_ g = Opcode_ f).
Proof.
  intros Hacc Hmax. apply WriteFrame_accepts in Hacc.
  split; [apply WriteFrame_shape; assumption|].
  intros l7 ext Hlf Hle. exists (as_decoded f).
  split; [apply ReadFrame_encoded; assumption|].
  pose proof (as_decoded_fields f) as Hf. repeat split; apply Hf.
Qed.

(** A payload of five octets, written with one length octet and read back
    from the encoding on sixteen bits: 0x81 0x7E 0x00 0x05 and the payload. *)
Lemma length_encoding_witness :
  WriteFrame (NewFrameParser 0) [] (NewFrame OpcodeText [72; 101; 108; 108; 111])
  = (None, [0x81; 0x05; 72; 101; 108; 108; 111])
  /\ exists g,
      ReadFrame (NewFrameParser 0) [0x81; 0x7E; 0x00; 0x05; 72; 101; 108; 108; 111]
      = (Ok g, [])
      /\ PayloadLen g = 5
      /\ Payload g = [72; 101; 108; 108; 111].
Proof.
  destruct (length_encoding (NewFrameParser 0)
              (NewFrame OpcodeText [72; 101; 108; 108; 111]) [] [])
    as [(l7 & ext & Hmin & Hw) Hr].
  - vm_compute. reflexivity.
  - vm_compute. reflexivity.
  - split; [vm_compute; reflexivity|].
    destruct (Hr 126 [0; 5]) as (g & Hg & Hlen & Hp & _).
    + apply (length_field_16 5). vm_compute. split; discriminate.
    + vm_compute. discriminate.
    + exists g. repeat split; assumption.
Defined.

(** ** [WriteFrame] and the payload buffer of the caller *)

Lemma frame_header_load (h : store) (f : FrameRef) :
  frame_header (load h f) = frame_header f.
Proof. destruct f. reflexivity. Qed.

Lemma fresh_not_allocated (h : store) : h !! fresh (dom h) = None.
Proof. apply not_elem_of_dom, is_fresh. Qed.

(** The masked branch: allocation, copy and in-place masking of the copy. *)
Lemma masked_copy (fp : FrameParser) (h : store) (src : slice) (key : Key4) :
  let '(h1, payload) := make h (length (deref h src)) in
  let h2 := copy h1 payload src in
  let h3 := UnmaskPayload_ref fp h2 payload key in
  (deref h src <> [] ->
   deref h3 payload = xor_mask key (deref h src))
  /\ forall l, is_Some (h !! l) -> h3 !! l = h !! l.
Proof.
  unfold make. cbv zeta.
  set (l := fresh (dom h)).
  assert (Hl : h !! l = None) by apply fresh_not_allocated.
  set (n := length (deref h src)).
  set (h1 := <[ l := replicate n 0 ]> h).
  assert (Hsrc : deref h src <> [] -> deref h1 src = deref h src).
  { intros Hne. destruct src as [p|]; [|reflexivity].
    unfold deref in *. subst h1.
    destruct (decide (l = p)) as [<- | Hlp].
    - rewrite Hl in Hne. contradiction.
    - now rewrite lookup_insert_ne. }
  assert (Hdst : deref h1 (Some l) = replicate n 0).
  { unfold deref. subst h1. now rewrite lookup_insert_eq. }
  unfold copy, UnmaskPayload_ref.
  split.
  - intros Hne. rewrite Hdst, (Hsrc Hne).
    rewrite length_replicate. subst n.
    rewrite take_ge, drop_ge by (rewrite ?length_replicate; lia).
    rewrite app_nil_r, UnmaskPayload_xor_mask.
    unfold deref at 1. rewrite lookup_insert_eq. cbn [default].
    unfold deref at 1. rewrite lookup_insert_eq. reflexivity.
  - intros p [x Hp].
    assert (l <> p) by congruence.
    subst h1. now rewrite !lookup_insert_ne.
Qed.

(** The store-passing [WriteFrame_ref] writes what [WriteFrame] writes for
    the frame taken as a value. *)
Lemma WriteFrame_ref_value (fp : FrameParser) (h : store) (w : list Z)
    (f : FrameRef) :
  fst (WriteFrame_ref fp h w f) = WriteFrame fp w (load h f).
Proof.
  unfold WriteFrame_ref, WriteFrame.
  destruct (Validate (load h f)); [reflexivity|].
  rewrite frame_header_load.
  change (Payload (load h f)) with (deref h (Payload f)).
  change (Masked (load h f)) with (Masked f).
  change (MaskingKey (load h f)) with (MaskingKey f).
  destruct (Z.gtb_spec (len (deref h (Payload f))) 0) as [Hpos | Hzero];
    [|reflexivity].
  destruct (Masked f); [|reflexivity].
  pose proof (masked_copy fp h (Payload f) (MaskingKey f)) as Hc.
  destruct (make h (length (deref h (Payload f)))) as [h1 payload].
  cbv zeta in Hc. destruct Hc as [Hc _].
  cbn [fst]. rewrite Hc, UnmaskPayload_xor_mask; [reflexivity|].
  intros Hnil. rewrite Hnil in Hpos. unfold len in Hpos. cbn in Hpos. lia.
Qed.

(** C8. When [WriteFrame] accepts a masked frame, the octets it writes
    after the header are the payload XOR-masked with the key, octet [i]
    with key octet [i mod 4], and the store is unchanged on every backing
    array that existed before the call: the payload buffer of the caller
    holds afterwards what it held before. *)
Theorem WriteFrame_keeps_payload (fp : FrameParser) (h : store) (w : list Z)
    (f : FrameRef) :
  Masked f = true ->
  fst (fst (WriteFrame_ref fp h w f)) = None ->
  fst (WriteFrame_ref fp h w f)
  = (None, w ++ frame_header f
             ++ imap (fun i b => Z.lxor b (key_at (MaskingKey f) (i mod 4)))
                     (deref h (Payload f)))
  /\ deref (snd (WriteFrame_ref fp h w f)) (Payload f) = deref h (Payload f)
  /\ forall l, is_Some (h !! l) ->
               snd (WriteFrame_ref fp h w f) !! l = h !! l.
Proof.
  intros Hm Hacc.
  assert (Hkeep : forall l, is_Some (h !! l) ->
                            snd (WriteFrame_ref fp h w f) !! l = h !! l).
  { unfold WriteFrame_ref.
    destruct (Validate (load h f)); [reflexivity|].
    destruct (len (deref h (Payload f)) >? 0); [|reflexivity].
    rewrite Hm.
    pose proof (masked_copy fp h (Payload f) (MaskingKey f)) as Hc.
    destruct (make h (length (deref h (Payload f)))) as [h1 payload].
    cbv zeta in Hc. destruct Hc as [_ Hc]. exact Hc. }
  split; [|split; [|exact Hkeep]].
  - rewrite WriteFrame_ref_value in *.
    unfold WriteFrame in *.
    destruct (Validate (load h f)); [discriminate Hacc|].
    rewrite frame_header_load.
    change (Payload (load h f)) with (deref h (Payload f)).
    change (Masked (load h f)) with (Masked f).
    change (MaskingKey (load h f)) with (MaskingKey f).
    rewrite Hm, UnmaskPayload_xor_mask. fold (xor_mask (MaskingKey f)).
    destruct (Z.gtb_spec (len (deref h (Payload f))) 0) as [Hpos | Hzero].
    + now rewrite <- app_assoc.
    + assert (deref h (Payload f) = []) as ->.
      { destruct (deref h (Payload f)); [reflexivity|].
        unfold len in Hzero. cbn [length] in Hzero. lia. }
      cbn [imap xor_mask]. now rewrite !app_nil_r.
  - assert (Hsame : deref h (Payload f) = [] ->
                    snd (WriteFrame_ref fp h w f) = h).
    { intros Hnil. unfold WriteFrame_ref.
      destruct (Validate (load h f)); [reflexivity|].
      rewrite Hnil. reflexivity. }
    destruct (Payload f) as [p|] eqn:HP; [|reflexivity].
    unfold deref in *.
    destruct (h !! p) as [x|] eqn:Hp.
    + rewrite Hkeep by (rewrite Hp; eauto). now rewrite Hp.
    + rewrite Hsame by reflexivity. now rewrite Hp.
Qed.

(** The scenario "Masked client text", with the payload in a backing array
    of the caller. *)
Lemma WriteFrame_keeps_payload_witness :
  let h : store := {[ 1%positive := [72; 101; 108; 108; 111] ]} in
  let f : FrameRef :=
    {| FIN := true; RSV1 := false; RSV2 := false; RSV3 := false;
       Opcode_ := OpcodeText; Masked := true; PayloadLen := 5;
       MaskingKey := (0x37, 0xFA, 0x21, 0x3D);
       Payload := Some 1%positive |} in
  fst (WriteFrame_ref (NewFrameParser 0) h [] f)
  = (None, [] ++ frame_header f
             ++ imap (fun i b => Z.lxor b (key_at (MaskingKey f) (i mod 4)))
                     (deref h (Payload f)))
  /\ deref (snd (WriteFrame_ref (NewFrameParser 0) h [] f)) (Payload f)
     = deref h (Payload f)
  /\ forall l, is_Some (h !! l) ->
               snd (WriteFrame_ref (NewFrameParser 0) h [] f) !! l = h !! l.
Proof.
  cbv zeta. apply WriteFrame_keeps_payload.
  - reflexivity.
  - vm_compute. reflexivity.
Defined.

Example WriteFrame_ref_masked_text :
  let h : store := {[ 1%positive := [72; 101; 108; 108; 111] ]} in
  let f : FrameRef :=
    {| FIN := true; RSV1 := false; RSV2 := false; RSV3 := false;
       Opcode_ := OpcodeText; Masked := true; PayloadLen := 5;
       MaskingKey := (0x37, 0xFA, 0x21, 0x3D);
       Payload := Some 1%positive |} in
  fst (WriteFrame_ref (NewFrameParser 0) h [] f)
  = (None, [0x81; 0x85; 0x37; 0xFA; 0x21; 0x3D; 0x7F; 0x9F; 0x4D; 0x51; 0x58])
  /\ snd (WriteFrame_ref (NewFrameParser 0) h [] f) !! 1%positive
     = Some [72; 101; 108; 108; 111].
Proof. vm_compute. split; reflexivity. Qed.

(** ** Handshake validation *)





















(* ===================================================================== *)
(** * Further properties of the code                                      *)
(* ===================================================================== *)

(** ** Masking *)

Lemma lxor_byte (a b : Z) : is_byte a -> is_byte b -> is_byte (Z.lxor a b).
Proof.
  unfold is_byte. intros [Ha0 Ha] [Hb0 Hb].
  assert (H0 : 0 <= Z.lxor a b) by (apply Z.lxor_nonneg; tauto).
  split; [assumption|].
  destruct (Z.eq_dec (Z.lxor a b) 0) as [-> | Hne]; [lia|].
  change 256 with (2 ^ 8). apply Z.log2_lt_pow2; [lia|].
  pose proof (Z.log2_lxor a b Ha0 Hb0) as Hl.
  assert (Z.log2 a < 8).
  { destruct (Z.eq_dec a 0) as [-> | ?]; [cbn; lia|].
    apply Z.log2_lt_pow2; [lia | exact Ha]. }
  assert (Z.log2 b < 8).
  { destruct (Z.eq_dec b 0) as [-> | ?]; [cbn; lia|].
    apply Z.log2_lt_pow2; [lia | exact Hb]. }
  lia.
Qed.

Lemma key_at_byte (k : Key4) (i : nat) :
  Forall is_byte (key_bytes k) -> is_byte (key_at k i).
Proof.
  destruct k as [[[k0 k1] k2] k3]. cbn [key_bytes key_at].
  intros H. inversion H as [|? ? H0 H']; subst.
  inversion H' as [|? ? H1 H'']; subst.
  inversion H'' as [|? ? H2 H''']; subst.
  inversion H''' as [|? ? H3 ?]; subst.
  destruct i as [|[|[|i]]]; assumption.
Qed.

Lemma xor_mask_bytes (key : Key4) (payload : list Z) :
  Forall is_byte payload -> Forall is_byte (key_bytes key) ->
  Forall is_byte (xor_mask key payload).
Proof.
  intros Hp Hk. apply Forall_lookup. intros i x Hx.
  unfold xor_mask in Hx. rewrite list_lookup_imap in Hx.
  destruct (payload !! i) as [b|] eqn:Hb; [|discriminate].
  cbn in Hx. injection Hx as <-.
  apply lxor_byte; [|apply key_at_byte; assumption].
  rewrite Forall_lookup in Hp. eapply Hp; eassumption.
Qed.

(** X2. [UnmaskPayload] keeps the length of the buffer, replaces the octet
    at every index [i] by its XOR with key octet [i mod 4], independently of
    the other octets, and maps octets to octets. *)
Theorem UnmaskPayload_pointwise (fp : FrameParser) (payload : list Z)
    (key : Key4) :
  length (UnmaskPayload fp payload key) = length payload
  /\ (forall i b, payload !! i = Some b ->
                  UnmaskPayload fp payload key !! i
                  = Some (Z.lxor b (key_at key (i mod 4))))
  /\ (Forall is_byte payload -> Forall is_byte (key_bytes key) ->
      Forall is_byte (UnmaskPayload fp payload key)).
Proof.
  rewrite UnmaskPayload_xor_mask. unfold xor_mask.
  split; [apply length_imap|].
  split.
  - intros i b Hb. rewrite list_lookup_imap, Hb. reflexivity.
  - apply xor_mask_bytes.
Qed.

Lemma UnmaskPayload_pointwise_witness :
  Forall is_byte (UnmaskPayload (NewFrameParser 0) [72; 101; 108; 108; 111]
                                (0x37, 0xFA, 0x21, 0x3D)).
Proof.
  apply (UnmaskPayload_pointwise (NewFrameParser 0) [72; 101; 108; 108; 111]
                                 (0x37, 0xFA, 0x21, 0x3D)).
  - repeat constructor; unfold is_byte; lia.
  - repeat constructor; unfold is_byte; lia.
Defined.

(** ** Reading a header that was written *)

Lemma ReadFrame_written (fp : FrameParser) (f : Frame) (l7 : Z)
    (ext rest : list Z) :
  structurally_valid f ->
  length_field (PayloadLen f) l7 ext ->
  ReadFrame fp ([first_octet f; mask_bit f + l7] ++ ext ++ rest)
  = if PayloadLen f >? maxPayloadSize fp then (Err ErrPayloadTooLarge, rest)
    else read_body fp (FIN f) (Opcode_ f) (Masked f) (PayloadLen f) rest.
Proof.
  intros Hv Hlf.
  assert (Hm : mask_bit f = 0 \/ mask_bit f = 128)
    by (unfold mask_bit; destruct (Masked f); auto).
  pose proof (length_field_declares _ _ _ _ rest Hlf Hm) as Hd.
  assert (Hl7 : 0 <= l7 <= 127) by (destruct Hlf; lia).
  destruct (second_octet_parse _ _ Hm Hl7) as [_ Hmask].
  destruct (first_octet_parse f Hv) as (Hop & Hfin & Hr1 & Hr2 & Hr3).
  cbn [app]. rewrite (ReadFrame_checks fp _ _ _ _ Hd). cbv zeta.
  cbn [hd]. rewrite Hop, Hfin, Hr1, Hr2, Hr3, Hmask.
  destruct Hv as (Hin & Hv1 & Hv2 & Hv3 & Hctl & Hlen).
  assert (Hopc : negb (IsControl (Opcode_ f)) && negb (IsData (Opcode_ f))
                 = false).
  { unfold valid_opcodes in Hin. cbn [In] in Hin.
    repeat (destruct Hin as [<- | Hin]; [reflexivity|]). contradiction. }
  rewrite Hopc. cbn [negb orb].
  destruct (PayloadLen f >? maxPayloadSize fp); [reflexivity|].
  assert (Hc1 : IsControl (Opcode_ f) && (PayloadLen f >? 125) = false).
  { destruct (IsControl (Opcode_ f)); [|reflexivity].
    destruct (Hctl eq_refl) as [H125 _].
    destruct (Z.gtb_spec (PayloadLen f) 125); [lia | reflexivity]. }
  assert (Hc2 : IsControl (Opcode_ f) && negb (FIN f) = false).
  { destruct (IsControl (Opcode_ f)); [|reflexivity].
    destruct (Hctl eq_refl) as [_ ->]. reflexivity. }
  rewrite Hc1, Hc2.
  unfold mask_bit. destruct (Masked f); reflexivity.
Qed.

Lemma UnmaskPayload_fp (fp fp' : FrameParser) (payload : list Z) (key : Key4) :
  UnmaskPayload fp payload key = UnmaskPayload fp' payload key.
Proof. reflexivity. Qed.

(** X3. [WriteFrame] does not look at the size limit of the codec: what it
    writes is the same for every codec. So a valid frame whose payload is
    longer than the limit is written without error, and the codec that wrote
    it refuses to read it back: ErrPayloadTooLarge, with the masking key and
    the payload left in the source. *)
Theorem WriteFrame_ignores_limit (fp : FrameParser) (f : Frame)
    (w rest : list Z) :
  (forall fp', WriteFrame fp' w f = WriteFrame fp w f)
  /\ (structurally_valid f ->
      maxPayloadSize fp < PayloadLen f < 2 ^ 64 ->
      exists header,
        WriteFrame fp w f = (None, w ++ header ++ wire_body f)
        /\ ReadFrame fp (header ++ wire_body f ++ rest)
           = (Err ErrPayloadTooLarge, wire_body f ++ rest)).
Proof.
  split; [reflexivity|].
  intros Hv [Hgt Hmax].
  destruct (WriteFrame_shape fp w f Hv Hmax) as (l7 & ext & Hmin & Hw).
  exists ([first_octet f; mask_bit f + l7] ++ ext).
  split; [rewrite Hw; now rewrite <- !app_assoc|].
  rewrite <- app_assoc.
  rewrite (ReadFrame_written fp f l7 ext _ Hv (proj1 Hmin)).
  destruct (Z.gtb_spec (PayloadLen f) (maxPayloadSize fp)); [reflexivity | lia].
Qed.

Lemma WriteFrame_ignores_limit_witness :
  exists header,
    WriteFrame (NewFrameParser 3) [] (NewFrame OpcodeText [72; 101; 108; 108; 111])
    = (None, [] ++ header ++ [72; 101; 108; 108; 111])
    /\ ReadFrame (NewFrameParser 3) (header ++ [72; 101; 108; 108; 111] ++ [])
       = (Err ErrPayloadTooLarge, [72; 101; 108; 108; 111] ++ []).
Proof.
  apply (proj2 (WriteFrame_ignores_limit (NewFrameParser 3)
                  (NewFrame OpcodeText [72; 101; 108; 108; 111]) [] [])).
  - unfold structurally_valid. cbn.
    repeat split; try reflexivity; try discriminate. right. left. reflexivity.
  - vm_compute. split; reflexivity.
Defined.

(** ** Frames built by [NewFrame], sizes, and frames in a row *)

Lemma NewFrame_valid (op : Opcode) (p : list Z) :
  structurally_valid (NewFrame op p)
  <-> In op valid_opcodes /\ (IsControl op = true -> len p <= 125).
Proof.
  unfold structurally_valid, NewFrame.
  cbn [FIN RSV1 RSV2 RSV3 Opcode_ Masked PayloadLen MaskingKey Payload].
  intuition.
Qed.

(** X4. [NewFrame] gives a valid frame exactly when the opcode is one of
    the six recognized ones and a control frame has at most 125 octets of
    payload. Such a frame, within the limit of the codec, is written
    unmasked (bit 7 of the second octet is 0) and is read back equal to the
    frame that [NewFrame] built, in every field. *)
Theorem NewFrame_roundtrip (fp : FrameParser) (op : Opcode) (p w rest : list Z) :
  (Validate (NewFrame op p) = None
   <-> In op valid_opcodes /\ (IsControl op = true -> len p <= 125))
  /\ (In op valid_opcodes ->
      (IsControl op = true -> len p <= 125) ->
      len p <= maxPayloadSize fp ->
      maxPayloadSize fp < 2 ^ 64 ->
      exists b0 b1 tail,
        WriteFrame fp w (NewFrame op p) = (None, w ++ b0 :: b1 :: tail)
        /\ Z.land b1 0x80 = 0
        /\ ReadFrame fp (b0 :: b1 :: tail ++ rest)
           = (Ok (NewFrame op p), rest)).
Proof.
  split.
  { rewrite Validate_structurally_valid. apply NewFrame_valid. }
  intros Hop Hctl Hle Hmax.
  assert (Hv : structurally_valid (NewFrame op p))
    by (apply NewFrame_valid; auto).
  destruct (WriteFrame_shape fp w (NewFrame op p) Hv) as (l7 & ext & Hmin & Hw).
  { cbn [NewFrame PayloadLen]. lia. }
  exists (first_octet (NewFrame op p)), (mask_bit (NewFrame op p) + l7),
    (ext ++ wire_body (NewFrame op p)).
  split; [exact Hw|].
  split.
  - assert (Hl7 : 0 <= l7 <= 127) by (destruct (proj1 Hmin); lia).
    destruct (second_octet_parse 0 l7 (or_introl eq_refl) Hl7) as [_ Hbit].
    change (mask_bit (NewFrame op p)) with 0.
    cbn [Z.eqb negb] in Hbit.
    destruct (Z.eqb_spec (Z.land (0 + l7) 128) 0); [assumption | discriminate].
  - pose proof (ReadFrame_encoded fp (NewFrame op p) l7 ext rest Hv Hle
                                  (proj1 Hmin)) as Hr.
    cbn [app] in Hr. rewrite <- app_assoc. exact Hr.
Qed.

Lemma NewFrame_roundtrip_witness :
  exists b0 b1 tail,
    WriteFrame (NewFrameParser 0) [] (NewFrame OpcodePing [112; 105; 110; 103])
    = (None, [] ++ b0 :: b1 :: tail)
    /\ Z.land b1 0x80 = 0
    /\ ReadFrame (NewFrameParser 0) (b0 :: b1 :: tail ++ [])
       = (Ok (NewFrame OpcodePing [112; 105; 110; 103]), []).
Proof.
  apply (proj2 (NewFrame_roundtrip (NewFrameParser 0) OpcodePing
                                   [112; 105; 110; 103] [] [])).
  - do 4 right. left. reflexivity.
  - intros _. vm_compute. discriminate.
  - vm_compute. discriminate.
  - vm_compute. reflexivity.
Defined.

(** X5. The number of octets that [WriteFrame] writes for a frame it
    accepts: two, plus two or eight for a length above 125 or above 65535,
    plus four for the key of a masked frame, plus the payload. The header
    takes between 2 and 14 octets. *)
Theorem WriteFrame_size (fp : FrameParser) (w : list Z) (f : Frame) :
  fst (WriteFrame fp w f) = None ->
  PayloadLen f < 2 ^ 64 ->
  exists octets,
    WriteFrame fp w f = (None, w ++ octets)
    /\ len octets
       = 2 + (if PayloadLen f <=? 125 then 0
              else if PayloadLen f <=? 65535 then 2 else 8)
         + (if Masked f then 4 else 0) + len (Payload f)
    /\ 2 <= len octets - len (Payload f) <= 14.
Proof.
  intros Hacc Hmax. apply WriteFrame_accepts in Hacc.
  destruct (WriteFrame_shape fp w f Hacc Hmax) as (l7 & ext & Hmin & Hw).
  eexists. split; [exact Hw|].
  destruct Hmin as (Hlf & H7 & H16 & H64).
  assert (Hbody : len (wire_body f)
                  = (if Masked f then 4 else 0) + len (Payload f)).
  { unfold wire_body, len. destruct (Masked f); [|lia].
    rewrite length_app, xor_mask_length.
    pose proof (key_bytes_length (MaskingKey f)) as Hk. unfold len in Hk. lia. }
  assert (Hext : len ext = if PayloadLen f <=? 125 then 0
                           else if PayloadLen f <=? 65535 then 2 else 8).
  { unfold len.
    destruct (Z.leb_spec (PayloadLen f) 125) as [Ha | Ha].
    - destruct (H7 Ha) as [_ ->]. reflexivity.
    - destruct (Z.leb_spec (PayloadLen f) 65535) as [Hb | Hb].
      + destruct H16 as [_ ->]; [lia | reflexivity].
      + destruct (H64 Hb) as [_ ->]. reflexivity. }
  assert (Hlen : len ([first_octet f; mask_bit f + l7] ++ ext ++ wire_body f)
                 = 2 + len ext + len (wire_body f)).
  { unfold len. rewrite !length_app. cbn [length]. lia. }
  rewrite Hlen, Hext, Hbody.
  split; [lia|].
  destruct (PayloadLen f <=? 125), (PayloadLen f <=? 65535), (Masked f); lia.
Qed.

Lemma WriteFrame_size_witness :
  exists octets,
    WriteFrame (NewFrameParser 0) [] (NewFrame OpcodeBinary (replicate 200 7))
    = (None, [] ++ octets)
    /\ len octets = 2 + 2 + 0 + 200.
Proof.
  destruct (WriteFrame_size (NewFrameParser 0) []
              (NewFrame OpcodeBinary (replicate 200 7)))
    as (octets & Hw & Hlen & _).
  - vm_compute. reflexivity.
  - vm_compute. reflexivity.
  - exists octets. split; [exact Hw|]. exact Hlen.
Defined.

(** X6. Frames written one after the other to the same sink are read back
    one after the other in the same order, each as [ReadFrame] decodes it,
    and the octets behind the last frame are left in the source. *)
Theorem WriteFrames_ReadFrames (fp : FrameParser) (fs : list Frame)
    (w rest : list Z) :
  Forall (fun f => structurally_valid f
                   /\ PayloadLen f <= maxPayloadSize fp) fs ->
  maxPayloadSize fp < 2 ^ 64 ->
  exists octets,
    WriteFrames fp w fs = (None, w ++ octets)
    /\ ReadFrames fp (length fs) (octets ++ rest)
       = (Ok (map as_decoded fs), rest).
Proof.
  intros Hfs Hmax. revert w.
  induction Hfs as [|f fs [Hv Hle] Hfs IH]; intros w.
  - exists []. split; [cbn; now rewrite app_nil_r | reflexivity].
  - destruct (WriteFrame_shape fp w f Hv) as (l7 & ext & Hmin & Hw); [lia|].
    destruct (IH (w ++ [first_octet f; mask_bit f + l7] ++ ext ++ wire_body f))
      as (octets & Hws & Hrs).
    exists (([first_octet f; mask_bit f + l7] ++ ext ++ wire_body f) ++ octets).
    split.
    + cbn [WriteFrames]. rewrite Hw, Hws. now rewrite <- !app_assoc.
    + cbn [ReadFrames length map]. unfold bind at 1.
      rewrite <- !app_assoc.
      rewrite (ReadFrame_encoded fp f l7 ext (octets ++ rest) Hv Hle
                                 (proj1 Hmin)).
      unfold bind at 1. rewrite Hrs. reflexivity.
Qed.

Lemma WriteFrames_ReadFrames_witness :
  exists octets,
    WriteFrames (NewFrameParser 0) []
      [NewFrame OpcodeText [72; 105]; NewFrame OpcodeClose [3; 232]]
    = (None, [] ++ octets)
    /\ ReadFrames (NewFrameParser 0) 2 (octets ++ [])
       = (Ok (map as_decoded
                [NewFrame OpcodeText [72; 105]; NewFrame OpcodeClose [3; 232]]),
          []).
Proof.
  apply (WriteFrames_ReadFrames (NewFrameParser 0)
           [NewFrame OpcodeText [72; 105]; NewFrame OpcodeClose [3; 232]] [] []).
  - constructor.
    { split; [|vm_compute; discriminate].
      apply NewFrame_valid. split; [right; left; reflexivity|].
      intros _. vm_compute. discriminate. }
    constructor; [|constructor].
    split; [|vm_compute; discriminate].
    apply NewFrame_valid. split; [do 3 right; left; reflexivity|].
    intros _. vm_compute. discriminate.
  - vm_compute. reflexivity.
Defined.

(** ** What [ReadFrame] returns *)

Lemma ReadFull_inv (n : Z) (r l r' : list Z) :
  ReadFull n r = (Ok l, r') ->
  (n <= 0 /\ l = [] /\ r' = r) \/ (0 < n /\ len l = n /\ r = l ++ r').
Proof.
  unfold ReadFull, len.
  destruct (Z.leb_spec n 0) as [Hn | Hn].
  - intros [= <- <-]. left. auto.
  - destruct (Z.ltb_spec (Z.of_nat (length r)) n) as [Hs | Hs];
      [discriminate|].
    intros [= <- <-]. right. split; [assumption|].
    split; [rewrite length_take; lia | now rewrite take_drop].
Qed.

Lemma ReadFull_short (n : Z) (r : list Z) :
  len r < n ->
  ReadFull n r
  = (Err (match r with [] => EOF | _ => ErrUnexpectedEOF end), []).
Proof.
  unfold ReadFull, len. intros Hs.
  destruct (Z.leb_spec n 0); [lia|].
  destruct (Z.ltb_spec (Z.of_nat (length r)) n); [reflexivity | lia].
Qed.

Lemma list_len_2 (l : list Z) : len l = 2 -> exists a b, l = [a; b].
Proof.
  unfold len. destruct l as [|a [|b [|c l]]]; cbn [length]; try lia. eauto.
Qed.

Lemma list_len_4 (l : list Z) : len l = 4 -> exists a b c d, l = [a; b; c; d].
Proof.
  unfold len. destruct l as [|a [|b [|c [|d [|e l]]]]]; cbn [length]; try lia.
  eauto.
Qed.

Lemma list_len_8 (l : list Z) :
  len l = 8 ->
  exists b0 b1 b2 b3 b4 b5 b6 b7, l = [b0; b1; b2; b3; b4; b5; b6; b7].
Proof.
  unfold len.
  destruct l as [|b0 [|b1 [|b2 [|b3 [|b4 [|b5 [|b6 [|b7 [|b8 l]]]]]]]]];
    cbn [length]; try lia.
  eauto 10.
Qed.

Lemma land_127_range (h : Z) : 0 <= Z.land h 0x7F <= 127.
Proof.
  assert (Z.land h 127 = h mod 128) as ->
    by (change 127 with (Z.ones 7); apply Z.land_ones; lia).
  pose proof (Z.mod_pos_bound h 128 ltac:(lia)). lia.
Qed.

(** The length field behind [declares]: its width and the range of the
    declared length. *)
Lemma declares_ext (s : list Z) (v : Z) (rest : list Z) :
  declares s v rest ->
  0 <= v < 2 ^ 64
  /\ exists h1 ext,
      s = h1 :: ext ++ rest
      /\ ((ext = [] /\ v <= 125) \/ (length ext = 2%nat /\ v <= 65535)
          \/ length ext = 8%nat).
Proof.
  intros Hd. destruct Hd as [h1 rest H7 | h1 a b rest H16 Ha Hb
                            | h1 b0 b1 b2 b3 b4 b5 b6 b7 rest H64
                                 H0 H1 H2 H3 H4 H5 H6 H7].
  - pose proof (land_127_range h1). split; [lia|].
    exists h1, []. split; [reflexivity | left; auto].
  - unfold is_byte in *. split; [lia|].
    exists h1, [a; b]. split; [reflexivity | right; left; split; [reflexivity | lia]].
  - unfold is_byte in *. split; [lia|].
    exists h1, [b0; b1; b2; b3; b4; b5; b6; b7].
    split; [reflexivity | right; right; reflexivity].
Qed.

Lemma parsePayloadLength_inv (fp : FrameParser) (h1 : Z) (r : list Z) (v : Z)
    (rest : list Z) :
  Forall is_byte r ->
  parsePayloadLength fp (Z.land h1 0x7F) r = (Ok v, rest) ->
  declares (h1 :: r) v rest.
Proof.
  intros Hr. unfold parsePayloadLength, protocol.PayloadLen16Bit,
    protocol.PayloadLen64Bit, bind, ret.
  pose proof (land_127_range h1) as Hl.
  destruct (Z.eqb_spec (Z.land h1 127) 126) as [H126 | H126].
  - destruct (ReadFull 2 r) as [[buf | e] r1] eqn:E; [|discriminate].
    intros [= <- <-].
    apply ReadFull_inv in E as [(? & _) | (_ & Hlen & ->)]; [lia|].
    destruct (list_len_2 _ Hlen) as (a & b & ->).
    apply Forall_app in Hr as [Hab _].
    inversion Hab as [|? ? Ha Hab']; subst.
    inversion Hab' as [|? ? Hb _]; subst.
    rewrite Uint16_sum by assumption.
    now constructor.
  - destruct (Z.eqb_spec (Z.land h1 127) 127) as [H127 | H127].
    + destruct (ReadFull 8 r) as [[buf | e] r1] eqn:E; [|discriminate].
      intros [= <- <-].
      apply ReadFull_inv in E as [(? & _) | (_ & Hlen & ->)]; [lia|].
      destruct (list_len_8 _ Hlen)
        as (b0 & b1 & b2 & b3 & b4 & b5 & b6 & b7 & ->).
      apply Forall_app in Hr as [Hb _].
      repeat match goal with
             | H : Forall is_byte (_ :: _) |- _ =>
                 let Hx := fresh "Hx" in
                 let Hl := fresh "Hl" in
                 inversion H as [|? ? Hx Hl]; subst; clear H
             end.
      rewrite Uint64_sum by assumption.
      now constructor.
    + intros [= <- <-]. constructor. lia.
Qed.

Lemma read_body_inv (fp : FrameParser) (fin : bool) (opcode : Opcode)
    (masked : bool) (v : Z) (r : list Z) (g : Frame) (r' : list Z) :
  0 <= v ->
  read_body fp fin opcode masked v r = (Ok g, r') ->
  exists key wire,
    r = (if masked then key_bytes key else []) ++ wire ++ r'
    /\ len wire = v
    /\ g = {| FIN := fin; RSV1 := false; RSV2 := false; RSV3 := false;
              Opcode_ := opcode; Masked := masked; PayloadLen := v;
              MaskingKey := if masked then key else zero_key;
              Payload := if masked then xor_mask key wire else wire |}.
Proof.
  intros Hv. unfold read_body, bind.
  assert (Hpay : forall (key : Key4) (r1 : list Z),
    (let (r0, r2) :=
       (if v >? 0
        then fun r3 => let (r4, r5) := ReadFull v r3 in
                       match r4 with
                       | Ok a => ret (if masked then UnmaskPayload fp a key else a) r5
                       | Err e => (Err e, r5)
                       end
        else ret []) r1 in
     match r0 with
     | Ok a => ret {| FIN := fin; RSV1 := false; RSV2 := false; RSV3 := false;
                      Opcode_ := opcode; Masked := masked; PayloadLen := v;
                      MaskingKey := key; Payload := a |} r2
     | Err e => (Err e, r2)
     end) = (Ok g, r') ->
    exists wire, r1 = wire ++ r' /\ len wire = v
      /\ g = {| FIN := fin; RSV1 := false; RSV2 := false; RSV3 := false;
                Opcode_ := opcode; Masked := masked; PayloadLen := v;
                MaskingKey := key;
                Payload := if masked then xor_mask key wire else wire |}).
  { intros key r1. unfold ret.
    destruct (Z.gtb_spec v 0) as [Hpos | Hzero].
    - destruct (ReadFull v r1) as [[p | e] r2] eqn:E; [|discriminate].
      intros [= <- <-].
      apply ReadFull_inv in E as [(? & _) | (_ & Hlen & ->)]; [lia|].
      exists p. rewrite UnmaskPayload_xor_mask. auto.
    - intros [= <- <-]. exists []. assert (v = 0) as -> by lia.
      destruct masked; auto. }
  destruct masked.
  - destruct (ReadFull 4 r) as [[k | e] r1] eqn:E; [|discriminate].
    unfold ret at 1. intros H.
    apply ReadFull_inv in E as [(? & _) | (_ & Hlen & ->)]; [lia|].
    destruct (list_len_4 _ Hlen) as (a & b & c & d & ->).
    destruct (Hpay _ _ H) as (wire & -> & Hw & ->).
    exists (a, b, c, d), wire. auto.
  - unfold ret at 1. intros H.
    destruct (Hpay _ _ H) as (wire & -> & Hw & ->).
    exists zero_key, wire. auto.
Qed.

(** The octets that a successful read has consumed, and the frame made of
    them. *)
Lemma ReadFrame_inv (fp : FrameParser) (r : list Z) (g : Frame) (r' : list Z) :
  Forall is_byte r ->
  ReadFrame fp r = (Ok g, r') ->
  exists h0 s v key wire,
    r = h0 :: s
    /\ declares s v ((if Masked g then key_bytes key else []) ++ wire ++ r')
    /\ len wire = v
    /\ v <= maxPayloadSize fp
    /\ (IsControl (Z.land h0 0x0F) || IsData (Z.land h0 0x0F) = true)
    /\ (IsControl (Z.land h0 0x0F) = true ->
        v <= 125 /\ negb (Z.land h0 0x80 =? 0) = true)
    /\ g = {| FIN := negb (Z.land h0 0x80 =? 0);
              RSV1 := false; RSV2 := false; RSV3 := false;
              Opcode_ := Z.land h0 0x0F; Masked := Masked g; PayloadLen := v;
              MaskingKey := if Masked g then key else zero_key;
              Payload := if Masked g then xor_mask key wire else wire |}.
Proof.
  intros Hr Hread.
  assert (Hhdr : exists h0 h1 r1 v rest,
             r = h0 :: h1 :: r1 /\ declares (h1 :: r1) v rest).
  { unfold ReadFrame, bind in Hread.
    destruct (ReadFull 2 r) as [[hdr | e] r1] eqn:E; [|discriminate].
    apply ReadFull_inv in E as [(? & _) | (_ & Hlen & ->)]; [lia|].
    destruct (list_len_2 _ Hlen) as (h0 & h1 & ->).
    cbn [at_ nth] in Hread.
    destruct (negb (IsControl (Z.land h0 15)) && negb (IsData (Z.land h0 15)));
      [discriminate|].
    destruct (negb (Z.land h0 64 =? 0) || negb (Z.land h0 32 =? 0)
              || negb (Z.land h0 16 =? 0)); [discriminate|].
    destruct (parsePayloadLength fp (Z.land h1 127) r1) as [[v | e] rest] eqn:E;
      [|discriminate].
    apply Forall_app in Hr as [_ Hr1].
    exists h0, h1, r1, v, rest. split; [reflexivity|].
    eapply parsePayloadLength_inv; eassumption. }
  destruct Hhdr as (h0 & h1 & r1 & v & rest & -> & Hd).
  rewrite (ReadFrame_checks fp h0 _ v rest Hd) in Hread. cbv zeta in Hread.
  cbn [hd] in Hread.
  destruct (negb (IsControl (Z.land h0 15)) && negb (IsData (Z.land h0 15)))
    eqn:Hop; [discriminate|].
  destruct (negb (Z.land h0 64 =? 0) || negb (Z.land h0 32 =? 0)
            || negb (Z.land h0 16 =? 0)); [discriminate|].
  destruct (Z.gtb_spec v (maxPayloadSize fp)) as [? | Hmax]; [discriminate|].
  destruct (IsControl (Z.land h0 15) && (v >? 125)) eqn:Hc1; [discriminate|].
  destruct (IsControl (Z.land h0 15) && negb (negb (Z.land h0 128 =? 0)))
    eqn:Hc2; [discriminate|].
  destruct (declares_ext _ _ _ Hd) as [[Hv0 _] _].
  apply read_body_inv in Hread as (key & wire & Hrest & Hw & Hg);
    [|assumption].
  assert (Hm : Masked g = negb (Z.land h1 128 =? 0)) by (rewrite Hg; reflexivity).
  exists h0, (h1 :: r1), v, key, wire.
  rewrite Hm. rewrite <- Hrest.
  split; [reflexivity|]. split; [assumption|]. split; [assumption|].
  split; [assumption|].
  split.
  { destruct (IsControl (Z.land h0 15)), (IsData (Z.land h0 15));
      try reflexivity; discriminate. }
  split; [|assumption].
  intros Hctl. rewrite Hctl in Hc1, Hc2. cbn [andb] in Hc1, Hc2.
  split.
  - destruct (Z.gtb_spec v 125); [discriminate | assumption].
  - destruct (negb (Z.land h0 128 =? 0)); [reflexivity | discriminate].
Qed.

Lemma land_15_range (h : Z) : 0 <= Z.land h 0x0F <= 15.
Proof.
  assert (Z.land h 15 = h mod 16) as ->
    by (change 15 with (Z.ones 4); apply Z.land_ones; lia).
  pose proof (Z.mod_pos_bound h 16 ltac:(lia)). lia.
Qed.

Lemma key_bytes_of_bytes (a b c d : Z) : key_bytes (a, b, c, d) = [a; b; c; d].
Proof. reflexivity. Qed.

(** Everything that a successful read tells about the frame and about the
    octets it took from the source. *)
Lemma ReadFrame_facts (fp : FrameParser) (r : list Z) (g : Frame)
    (r' : list Z) :
  Forall is_byte r ->
  ReadFrame fp r = (Ok g, r') ->
  exists consumed ext,
    r = consumed ++ r'
    /\ len consumed
       = 2 + len ext + (if Masked g then 4 else 0) + PayloadLen g
    /\ ((ext = [] /\ PayloadLen g <= 125)
        \/ (len ext = 2 /\ PayloadLen g <= 65535) \/ len ext = 8)
    /\ RSV1 g = false /\ RSV2 g = false /\ RSV3 g = false
    /\ (IsControlFrame g || IsDataFrame g = true)
    /\ 0 <= Opcode_ g <= 15
    /\ 0 <= PayloadLen g <= maxPayloadSize fp
    /\ PayloadLen g < 2 ^ 64
    /\ len (Payload g) = PayloadLen g
    /\ (IsControlFrame g = true -> PayloadLen g <= 125 /\ FIN g = true)
    /\ (Masked g = false -> MaskingKey g = zero_key)
    /\ Forall is_byte (Payload g).
Proof.
  intros Hr Hread.
  destruct (ReadFrame_inv fp r g r' Hr Hread)
    as (h0 & s & v & key & wire & -> & Hd & Hw & Hmax & Hop & Hctl & Hg).
  destruct (declares_ext _ _ _ Hd) as ([Hv0 Hv64] & h1 & ext & -> & Hext).
  set (kb := if Masked g then key_bytes key else []) in *.
  assert (Hkb : len kb = if Masked g then 4 else 0).
  { subst kb. destruct (Masked g); [apply key_bytes_length | reflexivity]. }
  assert (Hbytes : Forall is_byte kb /\ Forall is_byte wire).
  { inversion Hr as [|? ? _ Hr1]; subst.
    inversion Hr1 as [|? ? _ Hr2]; subst.
    apply Forall_app in Hr2 as [_ Hr3].
    apply Forall_app in Hr3 as [Hk Hr4].
    apply Forall_app in Hr4 as [Hwire _]. auto. }
  destruct Hbytes as [Hkbytes Hwbytes].
  exists (h0 :: h1 :: ext ++ kb ++ wire), ext.
  assert (HP : PayloadLen g = v) by (rewrite Hg; reflexivity).
  assert (HO : Opcode_ g = Z.land h0 15) by (rewrite Hg; reflexivity).
  assert (HF : FIN g = negb (Z.land h0 128 =? 0)) by (rewrite Hg; reflexivity).
  unfold IsControlFrame, IsDataFrame. rewrite HP, HO, HF.
  split; [cbn [app]; now rewrite <- !app_assoc|].
  split.
  { unfold len in *. cbn [length]. rewrite !length_app. lia. }
  split.
  { unfold len. destruct Hext as [? | [[-> ?] | ->]]; auto. }
  split; [rewrite Hg; reflexivity|].
  split; [rewrite Hg; reflexivity|].
  split; [rewrite Hg; reflexivity|].
  split; [assumption|].
  split; [apply land_15_range|].
  split; [lia|]. split; [assumption|].
  split.
  { rewrite Hg. cbn [Payload]. destruct (Masked g); [|assumption].
    unfold len in *. now rewrite xor_mask_length. }
  split; [assumption|].
  split.
  { intros Hm. rewrite Hg. cbn [MaskingKey Masked]. rewrite Hm. reflexivity. }
  rewrite Hg. cbn [Payload]. subst kb.
  destruct (Masked g); [|assumption].
  apply xor_mask_bytes; assumption.
Qed.

(** X7. A frame that [ReadFrame] returns from a source of octets has no
    reserved bit, an opcode that passes the opcode test of the read path, a
    payload of exactly the declared length, a length within the limit of
    the codec, the shape of a control frame if it is one, and a zero
    masking key if it is unmasked; the read has consumed a prefix of the
    source: a header of 2 to 10 octets, 4 more for a key, and the payload.
    When the opcode is one of the six recognized ones the frame passes
    [Validate]. *)
Theorem ReadFrame_sound (fp : FrameParser) (r : list Z) (g : Frame)
    (r' : list Z) :
  Forall is_byte r ->
  ReadFrame fp r = (Ok g, r') ->
  (exists consumed,
      r = consumed ++ r'
      /\ 2 <= len consumed - (if Masked g then 4 else 0) - PayloadLen g <= 10)
  /\ RSV1 g = false /\ RSV2 g = false /\ RSV3 g = false
  /\ (IsControlFrame g || IsDataFrame g = true)
  /\ 0 <= PayloadLen g <= maxPayloadSize fp
  /\ len (Payload g) = PayloadLen g
  /\ Forall is_byte (Payload g)
  /\ (IsControlFrame g = true -> PayloadLen g <= 125 /\ FIN g = true)
  /\ (Masked g = false -> MaskingKey g = zero_key)
  /\ (In (Opcode_ g) valid_opcodes -> Validate g = None).
Proof.
  intros Hr Hread.
  destruct (ReadFrame_facts fp r g r' Hr Hread)
    as (consumed & ext & Hc & Hlen & Hext & H1 & H2 & H3 & Hop & Hrange
        & HP & H64 & Hpl & Hctl & Hkey & Hb).
  split.
  { exists consumed. split; [assumption|].
    destruct Hext as [[-> ?] | [[He ?] | He]]; rewrite Hlen;
      [change (len []) with 0 | rewrite He | rewrite He]; lia. }
  repeat (split; [assumption|]).
  intros Hin. apply Validate_structurally_valid.
  unfold structurally_valid. auto 10.
Qed.

Lemma ReadFrame_sound_witness :
  Validate {| FIN := true; RSV1 := false; RSV2 := false; RSV3 := false;
              Opcode_ := 1; Masked := false; PayloadLen := 2;
              MaskingKey := zero_key; Payload := [72; 105] |} = None.
Proof.
  apply (ReadFrame_sound (NewFrameParser 0) [0x81; 0x7E; 0; 2; 72; 105; 9]
           {| FIN := true; RSV1 := false; RSV2 := false; RSV3 := false;
              Opcode_ := 1; Masked := false; PayloadLen := 2;
              MaskingKey := zero_key; Payload := [72; 105] |} [9]).
  - repeat constructor; unfold is_byte; lia.
  - vm_compute. reflexivity.
  - right. left. reflexivity.
Defined.

(** X8. A frame read from a source and of a recognized opcode can be
    written again: [WriteFrame] accepts it, takes no more octets than the
    read had consumed, and reading what it wrote gives the same frame. *)
Theorem ReadFrame_WriteFrame_ReadFrame (fp : FrameParser) (r : list Z)
    (g : Frame) (r' w rest : list Z) :
  Forall is_byte r ->
  ReadFrame fp r = (Ok g, r') ->
  In (Opcode_ g) valid_opcodes ->
  exists octets,
    WriteFrame fp w g = (None, w ++ octets)
    /\ ReadFrame fp (octets ++ rest) = (Ok g, rest)
    /\ len octets <= len r - len r'.
Proof.
  intros Hr Hread Hin.
  destruct (ReadFrame_facts fp r g r' Hr Hread)
    as (consumed & ext & Hc & Hlen & Hext & H1 & H2 & H3 & Hop & Hrange
        & HP & H64 & Hpl & Hctl & Hkey & Hb).
  assert (Hv : structurally_valid g) by (unfold structurally_valid; auto 10).
  destruct (WriteFrame_shape fp w g Hv H64) as (l7 & ext' & Hmin & Hw).
  exists ([first_octet g; mask_bit g + l7] ++ ext' ++ wire_body g).
  split; [exact Hw|].
  split.
  { rewrite <- !app_assoc.
    rewrite (ReadFrame_encoded fp g l7 ext' rest Hv (proj2 HP) (proj1 Hmin)).
    f_equal. f_equal. unfold as_decoded, without_key.
    destruct (Masked g) eqn:Hm; [reflexivity|].
    rewrite <- (Hkey eq_refl), <- Hm. destruct g; reflexivity. }
  assert (Hbody : len (wire_body g)
                  = (if Masked g then 4 else 0) + PayloadLen g).
  { unfold wire_body, len in *. destruct (Masked g); [|lia].
    rewrite length_app, xor_mask_length.
    pose proof (key_bytes_length (MaskingKey g)) as Hk. unfold len in Hk. lia. }
  assert (Hcl : len r - len r' = len consumed).
  { rewrite Hc. unfold len. rewrite length_app. lia. }
  rewrite Hcl, Hlen.
  replace (len ([first_octet g; mask_bit g + l7] ++ ext' ++ wire_body g))
    with (2 + len ext' + len (wire_body g))
    by (unfold len; rewrite !length_app; cbn [length]; lia).
  rewrite Hbody.
  destruct Hmin as (_ & H7 & H16 & H64').
  assert (len ext' <= len ext); [|lia].
  unfold len in *.
  destruct (Z.leb_spec (PayloadLen g) 125) as [Ha | Ha].
  - destruct (H7 Ha) as [_ ->]. cbn [length]. lia.
  - destruct (Z.leb_spec (PayloadLen g) 65535) as [Hb' | Hb'].
    + destruct H16 as [_ ->]; [lia|].
      destruct Hext as [[-> ?] | [[-> ?] | ->]]; cbn [length]; lia.
    + destruct (H64' Hb') as [_ ->].
      destruct Hext as [[-> ?] | [[? ?] | ->]]; cbn [length]; lia.
Qed.

Lemma ReadFrame_WriteFrame_ReadFrame_witness :
  exists octets,
    WriteFrame (NewFrameParser 0) []
      {| FIN := true; RSV1 := false; RSV2 := false; RSV3 := false;
         Opcode_ := 1; Masked := false; PayloadLen := 2;
         MaskingKey := zero_key; Payload := [72; 105] |} = (None, [] ++ octets)
    /\ ReadFrame (NewFrameParser 0) (octets ++ [])
       = (Ok {| FIN := true; RSV1 := false; RSV2 := false; RSV3 := false;
                Opcode_ := 1; Masked := false; PayloadLen := 2;
                MaskingKey := zero_key; Payload := [72; 105] |}, [])
    /\ len octets <= len [0x81; 0x7E; 0; 2; 72; 105; 9] - len [9].
Proof.
  apply (ReadFrame_WriteFrame_ReadFrame (NewFrameParser 0)
           [0x81; 0x7E; 0; 2; 72; 105; 9]).
  - repeat constructor; unfold is_byte; lia.
  - vm_compute. reflexivity.
  - right. left. reflexivity.
Defined.

(** ** Reading a frame that is cut short *)

Lemma ReadFull_short_io (n : Z) (r : list Z) :
  len r < n -> exists e, ReadFull n r = (Err e, []) /\ io_error e.
Proof.
  intros Hs. rewrite ReadFull_short by assumption.
  eexists. split; [reflexivity|]. unfold io_error. destruct r; auto.
Qed.

Lemma len_take (k : nat) (l : list Z) : (k < length l)%nat -> len (take k l) = Z.of_nat k.
Proof. intros Hk. unfold len. rewrite length_take. lia. Qed.

Lemma read_body_short (fp : FrameParser) (f : Frame) (k : nat) :
  len (Payload f) = PayloadLen f ->
  (k < length (wire_body f))%nat ->
  exists e,
    read_body fp (FIN f) (Opcode_ f) (Masked f) (PayloadLen f)
              (take k (wire_body f)) = (Err e, [])
    /\ io_error e.
Proof.
  intros Hlen Hk. unfold wire_body in *. unfold read_body, bind.
  destruct (Masked f).
  - rewrite length_app in Hk.
    pose proof (key_bytes_length (MaskingKey f)) as H4. unfold len in H4.
    destruct (decide (k < 4)%nat) as [Hk4 | Hk4].
    + rewrite take_app_le by lia.
      destruct (ReadFull_short_io 4 (take k (key_bytes (MaskingKey f))))
        as (e & -> & He).
      { unfold len. rewrite length_take. lia. }
      eauto.
    + rewrite take_app_ge by lia.
      rewrite ReadFull_app by (assumption || lia).
      unfold ret at 1.
      rewrite xor_mask_length in Hk.
      assert (Hpos : 0 < PayloadLen f) by (unfold len in Hlen; lia).
      destruct (Z.gtb_spec (PayloadLen f) 0); [|lia].
      destruct (ReadFull_short_io (PayloadLen f)
                  (take (k - length (key_bytes (MaskingKey f)))
                        (xor_mask (MaskingKey f) (Payload f))))
        as (e & -> & He).
      { unfold len in *. rewrite length_take, xor_mask_length. lia. }
      eauto.
  - unfold ret at 1.
    assert (Hpos : 0 < PayloadLen f) by (unfold len in Hlen; lia).
    destruct (Z.gtb_spec (PayloadLen f) 0); [|lia].
    destruct (ReadFull_short_io (PayloadLen f) (take k (Payload f)))
      as (e & -> & He).
    { unfold len in *. rewrite length_take. lia. }
    eauto.
Qed.

(** X9. Every proper prefix of the octets of a written frame fails to read
    with io.EOF or io.ErrUnexpectedEOF, never with a frame and never with
    one of the errors of the codec, and the source is used up. *)
Theorem ReadFrame_truncated (fp : FrameParser) (f : Frame) :
  structurally_valid f ->
  PayloadLen f <= maxPayloadSize fp ->
  maxPayloadSize fp < 2 ^ 64 ->
  exists octets,
    WriteFrame fp [] f = (None, octets)
    /\ forall n, (n < length octets)%nat ->
                 exists e, ReadFrame fp (take n octets) = (Err e, [])
                           /\ (e = EOF \/ e = ErrUnexpectedEOF).
Proof.
  intros Hv Hle Hmax.
  destruct (WriteFrame_shape fp [] f Hv) as (l7 & ext & Hmin & Hw); [lia|].
  eexists. split; [exact Hw|]. cbn [app].
  intros n Hn.
  destruct n as [|[|n]].
  - exists EOF. split; [reflexivity | auto].
  - exists ErrUnexpectedEOF. split; [reflexivity | auto].
  - cbn [take]. cbn [length] in Hn.
    assert (Hm : mask_bit f = 0 \/ mask_bit f = 128)
      by (unfold mask_bit; destruct (Masked f); auto).
    destruct Hmin as (Hlf & _).
    assert (Hl7 : 0 <= l7 <= 127) by (destruct Hlf; lia).
    destruct (decide (n < length ext)%nat) as [Hshort | Hlong].
    + (* cut inside the extended length *)
      rewrite take_app_le by lia.
      destruct (second_octet_parse _ _ Hm Hl7) as [Hl Hmask].
      destruct (first_octet_parse f Hv) as (Hop & Hfin & Hr1 & Hr2 & Hr3).
      unfold ReadFrame, bind at 1.
      change (first_octet f :: mask_bit f + l7 :: take n ext)
        with ([first_octet f; mask_bit f + l7] ++ take n ext).
      rewrite ReadFull_app by (reflexivity || lia).
      cbn [at_ nth]. rewrite Hop, Hr1, Hr2, Hr3, Hl.
      assert (Hopc : negb (IsControl (Opcode_ f)) && negb (IsData (Opcode_ f))
                     = false).
      { destruct Hv as (Hin & _). unfold valid_opcodes in Hin. cbn [In] in Hin.
        repeat (destruct Hin as [<- | Hin]; [reflexivity|]). contradiction. }
      rewrite Hopc. cbn [negb orb].
      unfold bind at 1, parsePayloadLength, protocol.PayloadLen16Bit,
        protocol.PayloadLen64Bit.
      destruct Hlf as [? | ? | ?]; cbn [length] in Hshort; [lia | |].
      * cbn [Z.eqb Pos.eqb]. unfold bind at 1.
        destruct (ReadFull_short_io 2 (take n [PayloadLen f / 256; PayloadLen f mod 256]))
          as (e & -> & He).
        { unfold len. rewrite length_take. cbn [length]. lia. }
        eauto.
      * cbn [Z.eqb Pos.eqb]. unfold bind at 1.
        match goal with
        | |- context [ReadFull 8 ?q] =>
            destruct (ReadFull_short_io 8 q) as (e & -> & He)
        end.
        { unfold len. rewrite length_take. cbn [length]. lia. }
        eauto.
    + (* cut inside the masking key or the payload *)
      rewrite take_app_ge by lia.
      rewrite length_app in Hn.
      change (first_octet f :: mask_bit f + l7
                :: ext ++ take (n - length ext) (wire_body f))
        with ([first_octet f; mask_bit f + l7] ++ ext
                ++ take (n - length ext) (wire_body f)).
      rewrite (ReadFrame_written fp f l7 ext _ Hv Hlf).
      destruct (Z.gtb_spec (PayloadLen f) (maxPayloadSize fp)); [lia|].
      apply read_body_short; [apply Hv | lia].
Qed.

Lemma ReadFrame_truncated_witness :
  exists octets,
    WriteFrame (NewFrameParser 0) [] (NewFrame OpcodeText [72; 105])
    = (None, octets)
    /\ forall n, (n < length octets)%nat ->
                 exists e, ReadFrame (NewFrameParser 0) (take n octets)
                           = (Err e, [])
                           /\ (e = EOF \/ e = ErrUnexpectedEOF).
Proof.
  apply (ReadFrame_truncated (NewFrameParser 0) (NewFrame OpcodeText [72; 105])).
  - unfold structurally_valid. cbn.
    repeat split; try reflexivity; try discriminate. right. left. reflexivity.
  - vm_compute. discriminate.
  - vm_compute. reflexivity.
Defined.

(** ** The size limit and the result of a read *)

(** X20. Raising the limit of a codec changes no result of [ReadFrame]
    other than ErrPayloadTooLarge: a frame read under a limit is read, the
    same, under every larger limit, and so is every other error. *)
Theorem ReadFrame_limit_monotone (fp fp' : FrameParser) (r : list Z) :
  maxPayloadSize fp <= maxPayloadSize fp' ->
  (forall g r', ReadFrame fp r = (Ok g, r') -> ReadFrame fp' r = (Ok g, r'))
  /\ (forall e r', ReadFrame fp r = (Err e, r') ->
                   e <> ErrPayloadTooLarge ->
                   ReadFrame fp' r = (Err e, r')).
Proof.
  intros Hle. unfold ReadFrame, bind.
  destruct (ReadFull 2 r) as [[hdr | e0] r1]; [|split; intros; assumption].
  destruct (negb (IsControl (Z.land (at_ hdr 0) 15))
            && negb (IsData (Z.land (at_ hdr 0) 15)));
    [split; intros; assumption|].
  destruct (negb (Z.land (at_ hdr 0) 64 =? 0)
            || negb (Z.land (at_ hdr 0) 32 =? 0)
            || negb (Z.land (at_ hdr 0) 16 =? 0));
    [split; intros; assumption|].
  change (parsePayloadLength fp') with (parsePayloadLength fp).
  destruct (parsePayloadLength fp (Z.land (at_ hdr 1) 127) r1)
    as [[v | e0] r2]; [|split; intros; assumption].
  destruct (Z.gtb_spec v (maxPayloadSize fp)) as [Hgt | Hok].
  { split; [intros g r' H; discriminate H|].
    intros e r' [= <- <-] Hne. contradiction. }
  destruct (Z.gtb_spec v (maxPayloadSize fp')); [lia|].
  split; intros; assumption.
Qed.

Lemma ReadFrame_limit_monotone_witness :
  ReadFrame (NewFrameParser 1000) [0x81; 2; 72; 105]
  = (Ok (NewFrame OpcodeText [72; 105]), []).
Proof.
  assert (Hle : maxPayloadSize (NewFrameParser 2)
                <= maxPayloadSize (NewFrameParser 1000))
    by (vm_compute; discriminate).
  apply (proj1 (ReadFrame_limit_monotone (NewFrameParser 2)
                  (NewFrameParser 1000) [0x81; 2; 72; 105] Hle)).
  vm_compute. reflexivity.
Defined.

(** ** Validation of a frame, and the two kinds of opcode *)

(** X10. [Validate] returns one of three errors, by priority: the opcode
    error when the opcode is not recognized; else the reserved-bit error
    when a reserved bit is set; else the structure error when a control
    frame is longer than 125 octets or not final, or when the payload has
    not the declared length. [WriteFrame] returns the same error and leaves
    the sink as it was. *)
Theorem Validate_errors (f : Frame) :
  (Validate f = Some ErrInvalidOpcode <-> ~ In (Opcode_ f) valid_opcodes)
  /\ (Validate f = Some ErrReservedBitsSet
      <-> In (Opcode_ f) valid_opcodes
          /\ RSV1 f || RSV2 f || RSV3 f = true)
  /\ (Validate f = Some ErrInvalidFrameStructure
      <-> In (Opcode_ f) valid_opcodes
          /\ RSV1 f || RSV2 f || RSV3 f = false
          /\ ((IsControlFrame f = true
               /\ (125 < PayloadLen f \/ FIN f = false))
              \/ len (Payload f) <> PayloadLen f))
  /\ (forall e, Validate f = Some e ->
        (e = ErrInvalidOpcode \/ e = ErrReservedBitsSet
         \/ e = ErrInvalidFrameStructure)
        /\ forall fp w, WriteFrame fp w f = (Some e, w)).
Proof.
  pose proof (isValidOpcode_In f) as Hop.
  assert (Hnot : isValidOpcode f = false -> ~ In (Opcode_ f) valid_opcodes).
  { intros Hf Hin. apply Hop in Hin. congruence. }
  split; [|split; [|split]].
  - unfold Validate.
    destruct (isValidOpcode f) eqn:E; cbn [negb].
    + assert (In (Opcode_ f) valid_opcodes) by (apply Hop; reflexivity).
      split; [|tauto].
      destruct (RSV1 f || RSV2 f || RSV3 f); [discriminate|].
      destruct (IsControl (Opcode_ f) && (PayloadLen f >? 125));
        [discriminate|].
      destruct (IsControl (Opcode_ f) && negb (FIN f)); [discriminate|].
      destruct (negb (len (Payload f) =? PayloadLen f)); discriminate.
    + split; [auto | reflexivity].
  - unfold Validate.
    destruct (isValidOpcode f) eqn:E; cbn [negb].
    + assert (In (Opcode_ f) valid_opcodes) by (apply Hop; reflexivity).
      destruct (RSV1 f || RSV2 f || RSV3 f); [tauto|].
      split; [|intros [_ ?]; discriminate].
      destruct (IsControl (Opcode_ f) && (PayloadLen f >? 125));
        [discriminate|].
      destruct (IsControl (Opcode_ f) && negb (FIN f)); [discriminate|].
      destruct (negb (len (Payload f) =? PayloadLen f)); discriminate.
    + split; [discriminate|]. intros [Hin _]. now apply Hnot in Hin.
  - unfold Validate, IsControlFrame.
    destruct (isValidOpcode f) eqn:E; cbn [negb].
    + assert (In (Opcode_ f) valid_opcodes) by (apply Hop; reflexivity).
      destruct (RSV1 f || RSV2 f || RSV3 f);
        [split; [discriminate | intros (_ & ? & _); discriminate]|].
      destruct (IsControl (Opcode_ f)); cbn [andb].
      * destruct (Z.gtb_spec (PayloadLen f) 125) as [Hgt | Hle];
          [split; [auto 10 | reflexivity]|].
        destruct (FIN f); cbn [negb];
          [|split; [auto 10 | reflexivity]].
        destruct (Z.eqb_spec (len (Payload f)) (PayloadLen f)) as [Heq | Hne];
          cbn [negb]; [|split; [auto 10 | reflexivity]].
        split; [discriminate|].
        intros (_ & _ & [[_ [? | ?]] | ?]);
          [lia | discriminate | contradiction].
      * destruct (Z.eqb_spec (len (Payload f)) (PayloadLen f)) as [Heq | Hne];
          cbn [negb]; [|split; [auto 10 | reflexivity]].
        split; [discriminate|].
        intros (_ & _ & [[? _] | ?]); [discriminate | contradiction].
    + split; [discriminate|]. intros [Hin _]. now apply Hnot in Hin.
  - intros e He. split.
    + unfold Validate in He.
      destruct (negb (isValidOpcode f)); [injection He as <-; auto|].
      destruct (RSV1 f || RSV2 f || RSV3 f); [injection He as <-; auto|].
      destruct (IsControl (Opcode_ f) && (PayloadLen f >? 125));
        [injection He as <-; auto|].
      destruct (IsControl (Opcode_ f) && negb (FIN f));
        [injection He as <-; auto|].
      destruct (negb (len (Payload f) =? PayloadLen f));
        [injection He as <-; auto | discriminate].
    + intros fp w. unfold WriteFrame. now rewrite He.
Qed.

Lemma Validate_errors_witness :
  WriteFrame (NewFrameParser 0) [1; 2]
    {| FIN := false; RSV1 := true; RSV2 := false; RSV3 := false;
       Opcode_ := OpcodeClose; Masked := false; PayloadLen := 10;
       MaskingKey := zero_key; Payload := [] |}
  = (Some ErrReservedBitsSet, [1; 2]).
Proof.
  apply (proj2 (proj2 (proj2 (Validate_errors
           {| FIN := false; RSV1 := true; RSV2 := false; RSV3 := false;
              Opcode_ := OpcodeClose; Masked := false; PayloadLen := 10;
              MaskingKey := zero_key; Payload := [] |})))).
  reflexivity.
Defined.

(** X11. No opcode is both a control and a data opcode; the opcodes that
    are neither are 3 to 7; of the six recognized opcodes the control ones
    are Close, Ping, Pong and the data ones Continuation, Text, Binary. *)
Theorem IsControl_IsData_partition (o : Opcode) :
  IsControl o && IsData o = false
  /\ (IsControl o || IsData o = false <-> 3 <= o <= 7)
  /\ (In o valid_opcodes ->
      (IsControl o = true <-> In o [OpcodeClose; OpcodePing; OpcodePong])
      /\ (IsData o = true
          <-> In o [OpcodeContinuation; OpcodeText; OpcodeBinary])).
Proof.
  unfold IsControl, IsData, valid_opcodes, OpcodeContinuation, OpcodeText,
    OpcodeBinary, OpcodeClose, OpcodePing, OpcodePong. cbn [In].
  destruct (Z.geb_spec o 8), (Z.leb_spec o 2); cbn [andb orb];
    repeat split; intros; try lia; try discriminate; try reflexivity.
Qed.

Lemma IsControl_IsData_partition_witness :
  IsControl OpcodePing = true /\ IsData OpcodePing = false.
Proof.
  pose proof (IsControl_IsData_partition OpcodePing) as (Hx & _ & Hv).
  destruct Hv as [Hc _]; [do 4 right; left; reflexivity|].
  assert (IsControl OpcodePing = true)
    by (apply Hc; right; left; reflexivity).
  split; [assumption|].
  destruct (IsControl OpcodePing), (IsData OpcodePing);
    try reflexivity; discriminate.
Defined.

(** ** The lifecycle over a sequence of requests *)

Lemma TransitionTo_step {any} (c : Connection any) (s : ConnectionState) :
  (fst (TransitionTo c s) = None
   /\ snd (TransitionTo c s) = set_State c s
   /\ State c < s <= 3 /\ 0 <= State c)
  \/ (fst (TransitionTo c s) <> None /\ snd (TransitionTo c s) = c).
Proof.
  unfold TransitionTo.
  pose proof (CanTransitionTo_permitted c s) as Hp.
  destruct (CanTransitionTo c s); cbn [negb fst snd].
  - left. split; [reflexivity|]. split; [reflexivity|].
    assert (Hin : In (State c, s) permitted) by (apply Hp; reflexivity).
    unfold permitted, StateConnecting, StateOpen, StateClosing, StateClosed
      in Hin. cbn [In] in Hin.
    repeat destruct Hin as [Hin | Hin]; try contradiction;
      injection Hin as <- <-; lia.
  - right. split; [discriminate | reflexivity].
Qed.

(** X12. Whatever states are requested one after the other, the state of a
    connection never moves backwards, at most three requests succeed, a
    connection that starts in one of the four states stays in them, one
    that is Closed stays as it is, and nothing but the state changes. *)
Theorem transitions_forward {any} (c : Connection any)
    (ss : list ConnectionState) :
  State c <= State (fst (transitions c ss))
  /\ Z.of_nat (snd (transitions c ss)) <= State (fst (transitions c ss)) - State c
  /\ (snd (transitions c ss) <= 3)%nat
  /\ (0 <= State c <= 3 -> State (fst (transitions c ss)) <= 3)
  /\ (State c = StateClosed -> transitions c ss = (c, O))
  /\ fst (transitions c ss) = set_State c (State (fst (transitions c ss))).
Proof.
  assert (Hmain : forall ss (c : Connection any),
    State c <= State (fst (transitions c ss))
    /\ Z.of_nat (snd (transitions c ss))
       <= State (fst (transitions c ss)) - State c
    /\ ((snd (transitions c ss) = O
         /\ State (fst (transitions c ss)) = State c)
        \/ (0 <= State c /\ State (fst (transitions c ss)) <= 3))
    /\ fst (transitions c ss) = set_State c (State (fst (transitions c ss)))).
  { clear. intros ss. induction ss as [|s ss IH]; intros c.
    - cbn [transitions fst snd]. split; [lia|]. split; [lia|].
      split; [auto|]. destruct c; reflexivity.
    - cbn [transitions].
      destruct (TransitionTo_step c s) as [(He & Hc & Hlt & H0) | (He & Hc)];
        destruct (TransitionTo c s) as [e c']; cbn [fst snd] in He, Hc;
        subst c'.
      + subst e. specialize (IH (set_State c s)).
        destruct (transitions (set_State c s) ss) as [c'' n].
        cbn [fst snd set_State State] in *.
        destruct IH as (I1 & I2 & I3 & I4).
        split; [lia|]. split; [lia|].
        split; [right; destruct I3 as [[_ ->] | ?]; lia|].
        rewrite I4 at 1. reflexivity.
      + destruct e as [e|]; [|contradiction].
        apply IH. }
  destruct (Hmain ss c) as (H1 & H2 & H3 & H4).
  split; [assumption|]. split; [assumption|].
  split; [destruct H3 as [[-> _] | ?]; lia|].
  split; [destruct H3 as [[_ ->] | ?]; lia|].
  split; [|assumption].
  intros Hcl. unfold StateClosed in Hcl.
  assert (Hn : snd (transitions c ss) = O).
  { destruct H3 as [[? _] | [_ ?]]; [assumption | lia]. }
  assert (Hs : State (fst (transitions c ss)) = State c).
  { destruct H3 as [[_ ?] | [_ ?]]; [assumption | lia]. }
  destruct (transitions c ss) as [c' n]. cbn [fst snd] in *.
  subst n. rewrite H4, Hs. destruct c; reflexivity.
Qed.

Lemma transitions_forward_witness :
  transitions (set_State (NewConnection (any := unit) 0 "c1" "1.2.3.4:5678")
                         StateClosed)
              [StateOpen; StateConnecting; StateClosing; StateClosed]
  = (set_State (NewConnection 0 "c1" "1.2.3.4:5678") StateClosed, O).
Proof.
  apply (proj1 (proj2 (proj2 (proj2 (proj2
           (transitions_forward
              (set_State (NewConnection (any := unit) 0 "c1" "1.2.3.4:5678")
                         StateClosed)
              [StateOpen; StateConnecting; StateClosing; StateClosed])))))).
  reflexivity.
Defined.

(** X13. The three state predicates exclude one another and none holds on
    a new connection; after a request that succeeds each predicate tells
    whether its state was the requested one; [UpdateActivity] changes none
    of them and commutes with [TransitionTo]. *)
Theorem state_predicates {any} (now : Time) (c : Connection any)
    (s : ConnectionState) :
  IsOpen c && IsClosing c = false
  /\ IsOpen c && IsClosed c = false
  /\ IsClosing c && IsClosed c = false
  /\ (forall t id addr,
        let c0 := NewConnection (any := any) t id addr in
        IsOpen c0 = false /\ IsClosing c0 = false /\ IsClosed c0 = false)
  /\ (fst (TransitionTo c s) = None ->
      IsOpen (snd (TransitionTo c s)) = (s =? StateOpen)
      /\ IsClosing (snd (TransitionTo c s)) = (s =? StateClosing)
      /\ IsClosed (snd (TransitionTo c s)) = (s =? StateClosed))
  /\ IsOpen (UpdateActivity now c) = IsOpen c
  /\ IsClosing (UpdateActivity now c) = IsClosing c
  /\ IsClosed (UpdateActivity now c) = IsClosed c
  /\ TransitionTo (UpdateActivity now c) s
     = (fst (TransitionTo c s), UpdateActivity now (snd (TransitionTo c s))).
Proof.
  unfold IsOpen, IsClosing, IsClosed, StateOpen, StateClosing, StateClosed.
  split; [destruct (Z.eqb_spec (State c) 1), (Z.eqb_spec (State c) 2);
          try reflexivity; lia|].
  split; [destruct (Z.eqb_spec (State c) 1), (Z.eqb_spec (State c) 3);
          try reflexivity; lia|].
  split; [destruct (Z.eqb_spec (State c) 2), (Z.eqb_spec (State c) 3);
          try reflexivity; lia|].
  split; [intros; repeat split|].
  split.
  { unfold TransitionTo. destruct (CanTransitionTo c s); cbn [negb fst snd];
      [|discriminate]. intros _. repeat split. }
  split; [reflexivity|]. split; [reflexivity|]. split; [reflexivity|].
  unfold TransitionTo, CanTransitionTo, UpdateActivity.
  cbn [State set_LastActivity].
  destruct (negb _); reflexivity.
Qed.

Lemma state_predicates_witness :
  IsOpen (snd (TransitionTo (NewConnection (any := unit) 0 "c1" "a") StateOpen))
  = true.
Proof.
  apply (proj1 (proj2 (proj2 (proj2 (proj2
           (state_predicates 0 (NewConnection (any := unit) 0 "c1" "a")
                             StateOpen))))) eq_refl).
Defined.

(** ** From a message to the wire *)

Lemma NewFrame_written (fp : FrameParser) (op : Opcode) (p w rest : list Z) :
  In op valid_opcodes ->
  (IsControl op = true -> len p <= 125) ->
  len p <= maxPayloadSize fp ->
  maxPayloadSize fp < 2 ^ 64 ->
  exists l7 ext,
    0 <= l7 <= 127
    /\ WriteFrame fp w (NewFrame op p)
       = (None, w ++ first_octet (NewFrame op p) :: (0 + l7)
                  :: ext ++ wire_body (NewFrame op p))
    /\ ReadFrame fp (first_octet (NewFrame op p) :: (0 + l7)
                       :: (ext ++ wire_body (NewFrame op p)) ++ rest)
       = (Ok (NewFrame op p), rest).
Proof.
  intros Hop Hctl Hle Hmax.
  assert (Hv : structurally_valid (NewFrame op p)).
  { unfold structurally_valid, NewFrame.
    cbn [FIN RSV1 RSV2 RSV3 Opcode_ Masked PayloadLen MaskingKey Payload].
    intuition. }
  destruct (WriteFrame_shape fp w (NewFrame op p) Hv) as (l7 & ext & Hmin & Hw).
  { cbn [NewFrame PayloadLen]. lia. }
  exists l7, ext.
  split; [destruct (proj1 Hmin); lia|].
  split; [exact Hw|].
  pose proof (ReadFrame_encoded fp (NewFrame op p) l7 ext rest Hv Hle
                                (proj1 Hmin)) as Hr.
  cbn [app] in Hr. rewrite <- app_assoc. exact Hr.
Qed.

(** X14. Every message, whatever its type tag and its payload, turns into
    a frame that [Validate] accepts: final, unmasked, of a data opcode.
    Within the limit of the codec the frame is written and read back
    unchanged. For a message that [Message_Validate] accepts the opcode
    tells the type: Text exactly for a text message, Binary exactly for a
    binary one, and a message is one or the other. The two constructors
    give messages that [Message_Validate] accepts. *)
Theorem Message_to_frame (fp : FrameParser) (m : Message) (w rest : list Z) :
  let f := NewFrame (ToOpcode m) (Message_Payload m) in
  Validate f = None
  /\ IsDataFrame f = true /\ FIN f = true /\ Masked f = false
  /\ (len (Message_Payload m) <= maxPayloadSize fp ->
      maxPayloadSize fp < 2 ^ 64 ->
      exists octets,
        WriteFrame fp w f = (None, w ++ octets)
        /\ ReadFrame fp (octets ++ rest) = (Ok f, rest))
  /\ (Message_Validate m = None ->
      (Opcode_ f = OpcodeText <-> IsText m = true)
      /\ (Opcode_ f = OpcodeBinary <-> IsBinary m = true)
      /\ IsText m = negb (IsBinary m))
  /\ (forall p, Message_Validate (NewTextMessage p) = None
                /\ Message_Validate (NewBinaryMessage p) = None).
Proof.
  cbv zeta.
  assert (Hop : ToOpcode m = OpcodeText \/ ToOpcode m = OpcodeBinary).
  { unfold ToOpcode. destruct (Message_Type m =? MessageTypeText); auto.
    destruct (Message_Type m =? MessageTypeBinary); auto. }
  assert (Hin : In (ToOpcode m) valid_opcodes).
  { destruct Hop as [-> | ->]; [right; left | right; right; left]; reflexivity. }
  assert (Hnc : IsControl (ToOpcode m) = false)
    by (destruct Hop as [-> | ->]; reflexivity).
  split.
  { apply Validate_structurally_valid. unfold structurally_valid, NewFrame.
    cbn [FIN RSV1 RSV2 RSV3 Opcode_ Masked PayloadLen MaskingKey Payload].
    rewrite Hnc. repeat split; try assumption; discriminate. }
  split; [unfold IsDataFrame; cbn [NewFrame Opcode_];
          destruct Hop as [-> | ->]; reflexivity|].
  split; [reflexivity|]. split; [reflexivity|].
  split.
  { intros Hle Hmax.
    destruct (NewFrame_written fp (ToOpcode m) (Message_Payload m) w rest)
      as (l7 & ext & _ & Hw & Hr); try assumption.
    { rewrite Hnc. discriminate. }
    eexists. split; [exact Hw|]. exact Hr. }
  split.
  { unfold Message_Validate, ToOpcode, IsText, IsBinary, MessageTypeText,
      MessageTypeBinary, OpcodeText, OpcodeBinary. cbn [NewFrame Opcode_].
    destruct (Z.eqb_spec (Message_Type m) 0), (Z.eqb_spec (Message_Type m) 1);
      cbn [negb andb]; intros Hval; try discriminate; try lia;
      repeat split; intros; try reflexivity; try discriminate. }
  intros p. split; reflexivity.
Qed.

Lemma Message_to_frame_witness :
  exists octets,
    WriteFrame (NewFrameParser 0) []
      (NewFrame (ToOpcode (NewTextMessage [72; 105])) [72; 105])
    = (None, [] ++ octets)
    /\ ReadFrame (NewFrameParser 0) (octets ++ [])
       = (Ok (NewFrame (ToOpcode (NewTextMessage [72; 105])) [72; 105]), []).
Proof.
  apply (proj1 (proj2 (proj2 (proj2 (proj2
           (Message_to_frame (NewFrameParser 0) (NewTextMessage [72; 105])
                             [] [])))))).
  - vm_compute. discriminate.
  - vm_compute. reflexivity.
Defined.

(** ** [WriteFrame] and the store, for every frame *)



(** ** The upgrade response *)

(** X15. On a response to which no status has been written, [PerformUpgrade]
    returns the error of [ValidateRequest]. When there is none it writes the
    status 101 and no body, and sets Upgrade to "websocket", Connection to
    "Upgrade" and Sec-WebSocket-Accept to the accept key of the request's
    key, which has 28 characters. When there is one it writes the status
    400 and the body "Bad Request: ", the text of the error and a line
    feed, and leaves Sec-WebSocket-Accept as it was. *)
Theorem PerformUpgrade_response (w : ResponseWriter) (req : Request) :
  Resp_Code w = None ->
  fst (PerformUpgrade w req) = ValidateRequest req
  /\ (ValidateRequest req = None ->
      let w' := snd (PerformUpgrade w req) in
      let accept :=
        GenerateAcceptKey (Get (Request_Header req) "Sec-WebSocket-Key") in
      Resp_Code w' = Some 101
      /\ Resp_Body w' = Resp_Body w
      /\ Get (Resp_Header w') "Upgrade" = "websocket"
      /\ Get (Resp_Header w') "Connection" = "Upgrade"
      /\ Get (Resp_Header w') "Sec-WebSocket-Accept" = accept
      /\ String.length accept = 28%nat)
  /\ (forall e, ValidateRequest req = Some e ->
      let w' := snd (PerformUpgrade w req) in
      Resp_Code w' = Some 400
      /\ Resp_Body w'
         = (Resp_Body w ++ "Bad Request: " ++ Error e ++ String "010"%char "")%string
      /\ Get (Resp_Header w') "Content-Type" = "text/plain; charset=utf-8"
      /\ Resp_Header w' !! "Sec-WebSocket-Accept"
         = Resp_Header w !! "Sec-WebSocket-Accept").
Proof.
  intros Hcode. unfold PerformUpgrade.
  destruct (ValidateRequest req) as [e|] eqn:Hval.
  - split; [reflexivity|]. split; [discriminate|].
    intros e' [= <-]. cbv zeta. cbn [snd].
    unfold http_Error, Write, WriteHeader, Header_Set, Header_Del,
      StatusBadRequest.
    cbn [Resp_Code Resp_Header Resp_Body]. rewrite Hcode.
    cbn [Resp_Code Resp_Header Resp_Body].
    split; [reflexivity|].
    split; [reflexivity|].
    split.
    { unfold Get. rewrite lookup_insert_ne by discriminate.
      now rewrite lookup_insert_eq. }
    rewrite !lookup_insert_ne by discriminate.
    now rewrite lookup_delete_ne by discriminate.
  - split; [reflexivity|]. split; [|discriminate].
    intros _. cbv zeta. cbn [snd].
    unfold WriteHeader, Header_Set, StatusSwitchingProtocols,
      protocol.HeaderUpgrade, protocol.HeaderConnection,
      protocol.HeaderSecWebSocketAccept, protocol.HeaderSecWebSocketKey,
      protocol.HeaderValueWebSocket, protocol.HeaderValueUpgrade.
    cbn [Resp_Code Resp_Header Resp_Body]. rewrite Hcode.
    cbn [Resp_Code Resp_Header Resp_Body].
    split; [reflexivity|]. split; [reflexivity|].
    unfold Get.
    split; [rewrite !lookup_insert_ne by discriminate;
            now rewrite lookup_insert_eq|].
    split; [rewrite lookup_insert_ne by discriminate;
            now rewrite lookup_insert_eq|].
    split; [now rewrite lookup_insert_eq|].
    pose proof (EncodeToString_length
                  (sha1_Sum (bytes (Get (Request_Header req) "Sec-WebSocket-Key"
                                      ++ protocol.WebSocketGUID)))) as H.
    unfold len in H. rewrite sha1_Sum_length in H.
    change (4 * ((Z.of_nat 20 + 2) / 3)) with 28 in H.
    unfold GenerateAcceptKey, Get in *. lia.
Qed.

Lemma PerformUpgrade_response_witness :
  Resp_Code (snd (PerformUpgrade NewRecorder {| Request_Header := ∅ |}))
  = Some 400
  /\ Get (Resp_Header
            (snd (PerformUpgrade NewRecorder
                    (handshake_request "websocket" "Upgrade"
                                       "dGhlIHNhbXBsZSBub25jZQ==" "13"))))
         "Sec-WebSocket-Accept"
     = GenerateAcceptKey
         (Get (Request_Header
                 (handshake_request "websocket" "Upgrade"
                                    "dGhlIHNhbXBsZSBub25jZQ==" "13"))
              "Sec-WebSocket-Key").
Proof.
  split.
  - apply (proj2 (proj2 (PerformUpgrade_response NewRecorder
                           {| Request_Header := ∅ |} eq_refl))
             (Plain "missing or invalid Upgrade header: expected 'websocket', got ''")).
    vm_compute. reflexivity.
  - apply (proj1 (proj2 (PerformUpgrade_response NewRecorder
             (handshake_request "websocket" "Upgrade"
                                "dGhlIHNhbXBsZSBub25jZQ==" "13") eq_refl))).
    vm_compute. reflexivity.
Defined.

(** ** Tokens of a header *)

Lemma Split_nonempty (s : list Z) (sep : Z) : Split s sep <> [].
Proof.
  induction s as [|c s IH]; cbn [Split]; [discriminate|].
  destruct (c =? sep); [discriminate|].
  destruct (Split s sep); [contradiction | discriminate].
Qed.

Lemma Split_app (a b : list Z) (sep : Z) :
  Split (a ++ sep :: b) sep = Split a sep ++ Split b sep.
Proof.
  induction a as [|c a IH]; cbn [app Split].
  - now rewrite Z.eqb_refl.
  - destruct (c =? sep); [now rewrite IH|].
    rewrite IH. pose proof (Split_nonempty a sep) as Hne.
    destruct (Split a sep) as [|t ts]; [contradiction | reflexivity].
Qed.

(** X16. A header that lists two groups of tokens separated by a comma
    contains a token exactly when one of the groups does; so the order of
    the tokens does not matter. An empty header contains no token that is
    not itself empty. *)
Theorem containsToken_comma (a b token : string) :
  containsToken (a ++ "," ++ b) token
  = containsToken a token || containsToken b token
  /\ containsToken (a ++ "," ++ b) token
     = containsToken (b ++ "," ++ a) token
  /\ (token <> "" -> containsToken "" token = false).
Proof.
  assert (Hsplit : forall a b,
            containsToken (a ++ "," ++ b) token
            = containsToken a token || containsToken b token).
  { intros x y. unfold containsToken.
    rewrite bytes_app.
    change (bytes ("," ++ y)) with (44 :: bytes y).
    rewrite Split_app. apply existsb_app. }
  split; [apply Hsplit|].
  split; [rewrite !Hsplit; apply orb_comm|].
  intros Hne. destruct token as [|c token]; [contradiction|]. reflexivity.
Qed.

Lemma containsToken_comma_witness :
  containsToken "" "Upgrade" = false.
Proof.
  apply (proj2 (proj2 (containsToken_comma "" "" "Upgrade"))). discriminate.
Defined.

(** ** The characters of the accept key *)

Lemma land_63_range (v : Z) : 0 <= Z.land v 0x3F <= 63.
Proof.
  assert (Z.land v 63 = v mod 64) as ->
    by (change 63 with (Z.ones 6); apply Z.land_ones; lia).
  pose proof (Z.mod_pos_bound v 64 ltac:(lia)). lia.
Qed.

Lemma get_In (s : string) (n : nat) (c : ascii) :
  String.get n s = Some c -> In c (list_ascii_of_string s).
Proof.
  revert n. induction s as [|a s IH]; intros n; [discriminate|].
  destruct n as [|n]; cbn [String.get list_ascii_of_string In].
  - intros [= ->]. left. reflexivity.
  - intros H. right. eapply IH, H.
Qed.

Lemma get_Some (s : string) (n : nat) :
  (n < String.length s)%nat -> exists c, String.get n s = Some c.
Proof.
  revert n. induction s as [|a s IH]; intros n; cbn [String.length].
  - lia.
  - destruct n as [|n]; [eauto|]. intros H. apply IH. lia.
Qed.

Lemma b64_alphabet (v : Z) : base64_char (b64 v).
Proof.
  unfold b64, base64_char.
  pose proof (land_63_range v) as Hr.
  destruct (get_Some encodeStd (Z.to_nat (Z.land v 63))) as [c Hc].
  { change (String.length encodeStd) with 64%nat. lia. }
  rewrite Hc. eapply get_In, Hc.
Qed.

Lemma list_len_20 (l : list Z) :
  length l = 20%nat ->
  exists a0 a1 a2 a3 a4 a5 a6 a7 a8 a9 b0 b1 b2 b3 b4 b5 b6 b7 b8 b9,
    l = [a0; a1; a2; a3; a4; a5; a6; a7; a8; a9;
         b0; b1; b2; b3; b4; b5; b6; b7; b8; b9].
Proof.
  intros H.
  do 20 (destruct l as [|? l]; [discriminate|]).
  destruct l; [|discriminate]. do 20 eexists. reflexivity.
Qed.

(** X17. The accept key of every client key is 27 characters of the base64
    alphabet followed by one padding character. *)
Theorem GenerateAcceptKey_alphabet (key : string) :
  exists body,
    GenerateAcceptKey key = (body ++ "=")%string
    /\ String.length body = 27%nat
    /\ Forall base64_char (list_ascii_of_string body).
Proof.
  unfold GenerateAcceptKey.
  pose proof (sha1_Sum_length (bytes (key ++ protocol.WebSocketGUID))) as HL.
  remember (sha1_Sum (bytes (key ++ protocol.WebSocketGUID))) as d eqn:E.
  clear E.
  destruct (list_len_20 d HL)
    as (a0 & a1 & a2 & a3 & a4 & a5 & a6 & a7 & a8 & a9
        & b0 & b1 & b2 & b3 & b4 & b5 & b6 & b7 & b8 & b9 & ->).
  cbn [EncodeToString].
  eexists (String _ (String _ (String _ (String _ (String _ (String _
          (String _ (String _ (String _ (String _ (String _ (String _
          (String _ (String _ (String _ (String _ (String _ (String _
          (String _ (String _ (String _ (String _ (String _ (String _
          (String _ (String _ (String _ ""))))))))))))))))))))))))))).
  split; [reflexivity|]. split; [reflexivity|].
  cbn [list_ascii_of_string].
  repeat (constructor; [apply b64_alphabet|]). constructor.
Qed.

(** ** The names of the states and of the message types *)

Lemma itoa_inj (a b : Z) : itoa a = itoa b -> a = b.
Proof.
  unfold itoa. intros H.
  apply (f_equal NilEmpty.int_of_string) in H.
  rewrite !NilEmpty.isi in H. injection H as H.
  now apply DecimalZ.to_int_inj.
Qed.

Lemma append_inj_l (p s t : string) : (p ++ s = p ++ t)%string -> s = t.
Proof.
  induction p as [|c p IH]; intros H; [exact H|].
  change (String c (p ++ s) = String c (p ++ t))%string in H.
  injection H as H. now apply IH.
Qed.

Lemma append_inj_r (s t : string) (c : ascii) :
  (s ++ String c "" = t ++ String c "")%string -> s = t.
Proof.
  revert t. induction s as [|a s IH]; intros [|b t] H.
  - reflexivity.
  - change (String c "" = String b (t ++ String c ""))%string in H.
    injection H as _ H. destruct t; discriminate.
  - change (String a (s ++ String c "") = String c "")%string in H.
    injection H as _ H. destruct s; discriminate.
  - change (String a (s ++ String c "") = String b (t ++ String c ""))%string
      in H.
    injection H as -> H. f_equal. now apply IH.
Qed.

Lemma unknown_inj (a b : Z) :
  ("Unknown(" ++ itoa a ++ ")" = "Unknown(" ++ itoa b ++ ")")%string -> a = b.
Proof.
  intros H. apply append_inj_l, append_inj_r in H. now apply itoa_inj.
Qed.

Lemma unknown_head (a : Z) :
  exists tail, ("Unknown(" ++ itoa a ++ ")")%string = String "U"%char tail.
Proof. eexists. reflexivity. Qed.

(** X18. [String] gives different names to different states and to
    different message types, the values without a name of their own
    included. *)
Theorem String_injective :
  (forall s1 s2 : ConnectionState,
      ConnectionState_String s1 = ConnectionState_String s2 -> s1 = s2)
  /\ (forall m1 m2 : MessageType,
        MessageType_String m1 = MessageType_String m2 -> m1 = m2).
Proof.
  split.
  - intros s1 s2. unfold ConnectionState_String, StateConnecting, StateOpen,
      StateClosing, StateClosed.
    destruct (unknown_head s1) as [t1 H1], (unknown_head s2) as [t2 H2].
    destruct (Z.eqb_spec s1 0), (Z.eqb_spec s1 1), (Z.eqb_spec s1 2),
      (Z.eqb_spec s1 3), (Z.eqb_spec s2 0), (Z.eqb_spec s2 1),
      (Z.eqb_spec s2 2), (Z.eqb_spec s2 3);
      try lia; try discriminate;
      try (rewrite H1; discriminate); try (rewrite H2; discriminate).
    apply unknown_inj.
  - intros m1 m2. unfold MessageType_String, MessageTypeText,
      MessageTypeBinary.
    destruct (unknown_head m1) as [t1 H1], (unknown_head m2) as [t2 H2].
    destruct (Z.eqb_spec m1 0), (Z.eqb_spec m1 1), (Z.eqb_spec m2 0),
      (Z.eqb_spec m2 1);
      try lia; try discriminate;
      try (rewrite H1; discriminate); try (rewrite H2; discriminate).
    apply unknown_inj.
Qed.

Lemma String_injective_witness :
  ConnectionState_String 99 <> ConnectionState_String 3
  /\ ConnectionState_String 99 = "Unknown(99)".
Proof.
  split; [|reflexivity].
  intros H. apply (proj1 String_injective) in H. discriminate H.
Defined.
